(** * Cypress test dashboard backend: run registry, run executor, result normalizer

    A shallow embedding of [JuiceShop/cypress-api-implementation.js] (the
    Express server of the dashboard) and the properties of its run registry
    ([testResultsStore]), of the [POST /api/tests/run] handler with its
    [close] callback, of [processTestResults] and of the category helpers.

    Modelling conventions.
    - JS strings are [string]s of ASCII characters; [toLowerCase] and
      [toUpperCase] act on the letters A-Z / a-z.
    - JS numbers that the code uses as counters, clock readings and
      durations are integers ([Z]); [NaN] is explicit where the code can
      produce it ([parseInt]).
    - A JS object used as a dictionary is an association list in insertion
      order (the order [Object.values] enumerates keys that are not array
      indices); assigning to an existing key keeps the key's position. Keys
      are own properties: no key is the name of a property of
      [Object.prototype].
    - [new Date().toISOString()] is modelled by the clock reading (in ms) it
      denotes; [new Date(iso)] gives that reading back.
    - The clock, the exit code of the child process and the report file are
      inputs of the handlers. The text the child process writes to its
      standard output and error, which the server copies to the console, is
      not modelled. *)

From Stdlib Require Import ZArith List String Ascii Bool Lia.
From Stdlib Require Import Sorting.Sorted Sorting.Permutation.
From Stdlib Require Import DecimalString DecimalPos DecimalZ.
From ExtLib Require Import Structures.Monad Structures.MonadState.
From ExtLib Require Import Data.Monads.StateMonad.
Import ListNotations.
Import MonadNotation.

Local Open Scope string_scope.
Local Open Scope Z_scope.
Local Open Scope monad_scope.

(* ===================================================================== *)
(** ** JavaScript strings *)
(* ===================================================================== *)

Module JsString.

Definition chars (s : string) : list ascii := list_ascii_of_string s.
Definition of_chars (l : list ascii) : string := string_of_list_ascii l.

  (** The one-character string holding a double quote. *)
Definition dquote : string := String (ascii_of_nat 34) EmptyString.

Definition is_upper (c : ascii) : bool :=
    let n := nat_of_ascii c in (65 <=? n)%nat && (n <=? 90)%nat.
Definition is_lower (c : ascii) : bool :=
    let n := nat_of_ascii c in (97 <=? n)%nat && (n <=? 122)%nat.

(** [toLowerCase] and [toUpperCase] on one ASCII character: only the
    letters change, and the length never does. *)
Definition lower_char (c : ascii) : ascii :=
    if is_upper c then ascii_of_nat (nat_of_ascii c + 32) else c.
Definition upper_char (c : ascii) : ascii :=
    if is_lower c then ascii_of_nat (nat_of_ascii c - 32) else c.

  (** [s.toLowerCase()] *)
Fixpoint toLowerCase (s : string) : string :=
    match s with
    | EmptyString => EmptyString
    | String c s' => String (lower_char c) (toLowerCase s')
    end.

  (** [s.includes(k)]: [k] occurs in [s] as a contiguous substring. *)
Fixpoint includes (s k : string) : bool :=
    String.prefix k s ||
    match s with
    | EmptyString => false
    | String _ s' => includes s' k
    end.

  (** [s.replace(/c/g, d)] for a single character [c]. *)
Fixpoint replace_char (c d : ascii) (s : string) : string :=
    match s with
    | EmptyString => EmptyString
    | String x s' =>
        String (if Ascii.eqb x c then d else x) (replace_char c d s')
    end.

  (** [s.split(c)] for a one-character separator: always at least one field. *)
Fixpoint split (c : ascii) (s : string) : list string :=
    match s with
    | EmptyString => [EmptyString]
    | String x s' =>
        if Ascii.eqb x c then EmptyString :: split c s'
        else match split c s' with
             | [] => [String x EmptyString]
             | w :: ws => String x w :: ws
             end
    end.

  (** [l.join(sep)] *)
Fixpoint join (sep : string) (l : list string) : string :=
    match l with
    | [] => EmptyString
    | [w] => w
    | w :: ws => w ++ sep ++ join sep ws
    end.

  (** [`${n}`] for an integer [n] below 1e21: its decimal digits. *)
Definition of_num (n : Z) : string := NilZero.string_of_int (Z.to_int n).

  (** [path.basename(p)] (POSIX): the last segment of [p] that is not empty,
      trailing slashes ignored; empty when there is none. *)
Fixpoint take_until (p : ascii -> bool) (l : list ascii) : list ascii :=
    match l with
    | [] => []
    | c :: l' => if p c then [] else c :: take_until p l'
    end.
Fixpoint drop_until (p : ascii -> bool) (l : list ascii) : list ascii :=
    match l with
    | [] => []
    | c :: l' => if p c then l else drop_until p l'
    end.
Fixpoint drop_while (p : ascii -> bool) (l : list ascii) : list ascii :=
    match l with
    | [] => []
    | c :: l' => if p c then drop_while p l' else l
    end.

Definition is_slash (c : ascii) : bool := Ascii.eqb c "/"%char.
Definition is_dot (c : ascii) : bool := Ascii.eqb c "."%char.

Definition basename (p : string) : string :=
    of_chars (rev (take_until is_slash (drop_while is_slash (rev (chars p))))).

  (** [s.replace(/\.[^/.]+$/, '')]: a match starts at the last dot of [s],
      when at least one character follows it and none of them is a slash. *)
Definition strip_extension (s : string) : string :=
    let r := rev (chars s) in
    let ext := take_until (fun c => is_dot c || is_slash c) r in
    match ext, drop_until (fun c => is_dot c || is_slash c) r with
    | _ :: _, c :: rest => if is_dot c then of_chars (rev rest) else s
    | _, _ => s
    end.

  (** [word.charAt(0).toUpperCase() + word.slice(1)] *)
Definition capitalize (w : string) : string :=
    match w with
    | EmptyString => EmptyString
    | String c w' => String (upper_char c) w'
    end.

End JsString.

(* ===================================================================== *)
(** ** JavaScript objects used as dictionaries *)
(* ===================================================================== *)

Module JsObject.
Section Dict.
Context {V : Type}.

Definition t := list (string * V).

    (** [o[k]] ([None] is [undefined]) *)
Fixpoint get (k : string) (o : list (string * V)) : option V :=
      match o with
      | [] => None
      | (k', v) :: o' => if String.eqb k k' then Some v else get k o'
      end.

    (** [o[k] = v] *)
Fixpoint set (k : string) (v : V) (o : list (string * V)) : list (string * V) :=
      match o with
      | [] => [(k, v)]
      | (k', v') :: o' =>
          if String.eqb k k' then (k', v) :: o' else (k', v') :: set k v o'
      end.

    (** [Object.keys(o)] and [Object.values(o)] *)
Definition keys (o : list (string * V)) : list string := map fst o.
Definition values (o : list (string * V)) : list V := map snd o.

    (** In-place update of the value under [k] (as [o[k].f++] does). *)
Definition alter (f : V -> V) (k : string) (o : list (string * V)) : list (string * V) :=
      match get k o with
      | Some v => set k (f v) o
      | None => o
      end.
End Dict.
Arguments t : clear implicits.
End JsObject.

(* ===================================================================== *)
(** ** Data model *)
(* ===================================================================== *)

(** Run status: ['running' | 'completed' | 'error']. *)
Module RunStatus.
Inductive t := running | completed | error.

Definition eqb (a b : t) : bool :=
    match a, b with
    | running, running | completed, completed | error, error => true
    | _, _ => false
    end.

Definition is_terminal (s : t) : bool :=
    match s with running => false | completed | error => true end.
End RunStatus.

(** Test status: ['passed' | 'failed' | 'skipped']. *)
Module TestStatus.
Inductive t := passed | failed | skipped.
End TestStatus.

(** The [config] object of a run: [{ suites, browser, mode }]. *)
Module Config.
Record t := mk { suites : list string; browser : string; mode : string }.
End Config.

(** The value of [suites] in a request body that is neither absent nor an
    array: [null]; a number or a boolean; a string; or an object, with the
    truth value of [suites.length > 0]. *)
Inductive OtherSuites :=
| SuitesNull
| SuitesScalar
| SuitesText (s : string)
| SuitesObject (lengthPositive : bool).

(** The [config] of a run record: typed when [suites] is an array, and
    with the value of [suites] as it came otherwise. *)
Inductive RunConfig :=
| Typed (config : Config.t)
| Untyped (suites : OtherSuites) (browser mode : string).

Coercion Typed : Config.t >-> RunConfig.

(** The [summary] object. *)
Module Summary.
Record t := mk { total : Z; passed : Z; failed : Z; skipped : Z; duration : Z }.

Definition zero : t := mk 0 0 0 0 0.

  (** [summary[status]++] *)
Definition bump (st : TestStatus.t) (s : t) : t :=
    match st with
    | TestStatus.passed => mk (total s) (passed s + 1) (failed s) (skipped s) (duration s)
    | TestStatus.failed => mk (total s) (passed s) (failed s + 1) (skipped s) (duration s)
    | TestStatus.skipped => mk (total s) (passed s) (failed s) (skipped s + 1) (duration s)
    end.
End Summary.

(** The mochawesome report read from disk. *)
Module Raw.
Record Err := mkErr { message : option string; stack : option string }.

  (** [pass] and [fail] hold the truthiness of the fields; an absent
      [duration] or [err] is [None]. *)
Record Test := mkTest {
    title : string;
    fullTitle : string;
    pass : bool;
    fail : bool;
    duration : option Z;
    err : option Err;
    code : string
  }.

Record Suite := mkSuite { tests : list Test }.
Record File := mkFile { file : string; suites : list Suite }.
Record Report := mkReport { results : list File }.
End Raw.

(** One entry of [suites[suiteId].tests]. *)
Module TestResult.
Record t := mk {
    name : string;
    fullTitle : string;
    status : TestStatus.t;
    duration : Z;
    error : option Raw.Err;
    code : string;
    category : string
  }.
End TestResult.

(** One entry of [suites]. *)
Module SuiteResult.
Record t := mk {
    name : string;
    file : string;
    passed : Z;
    failed : Z;
    skipped : Z;
    tests : JsObject.t TestResult.t
  }.

  (** [suite[status]++] *)
Definition bump (st : TestStatus.t) (s : t) : t :=
    match st with
    | TestStatus.passed => mk (name s) (file s) (passed s + 1) (failed s) (skipped s) (tests s)
    | TestStatus.failed => mk (name s) (file s) (passed s) (failed s + 1) (skipped s) (tests s)
    | TestStatus.skipped => mk (name s) (file s) (passed s) (failed s) (skipped s + 1) (tests s)
    end.

  (** [suite.tests[testId] = detail] *)
Definition set_test (testId : string) (d : TestResult.t) (s : t) : t :=
    mk (name s) (file s) (passed s) (failed s) (skipped s)
       (JsObject.set testId d (tests s)).
End SuiteResult.

(** What [processTestResults] returns: [{ summary, suites }]. *)
Module Processed.
Record t := mk { summary : Summary.t; suites : JsObject.t SuiteResult.t }.
End Processed.

(** A run record of the registry. [endTime = None] is [null]. *)
Module Run.
Record t := mk {
    id : string;
    status : RunStatus.t;
    startTime : Z;
    endTime : option Z;
    config : RunConfig;
    summary : Summary.t;
    suites : JsObject.t SuiteResult.t
  }.
End Run.

(* ===================================================================== *)
(** ** Category helpers and name formatting *)
(* ===================================================================== *)

Import JsString.

(** [getCategoryFromFilename] *)
Definition getCategoryFromFilename (filename : string) : string :=
  let filenameLower := toLowerCase filename in
  if includes filenameLower "login" || includes filenameLower "auth" then
    "Authentication"
  else if includes filenameLower "user" then
    "User Management"
  else if includes filenameLower "cart" || includes filenameLower "basket" then
    "Shopping Cart"
  else if includes filenameLower "product" then
    "Products"
  else if includes filenameLower "api" then
    "API"
  else if includes filenameLower "security" || includes filenameLower "xss"
          || includes filenameLower "injection" then
    "Security"
  else if includes filenameLower "checkout" then
    "Checkout"
  else "Functional".

(** [getCategoryFromContext] *)
Definition getCategoryFromContext (context : string) : string :=
  let contextLower := toLowerCase context in
  if includes contextLower "login" || includes contextLower "auth" then
    "Authentication"
  else if includes contextLower "user" then
    "User Management"
  else if includes contextLower "cart" || includes contextLower "basket" then
    "Shopping Cart"
  else if includes contextLower "product" then
    "Products"
  else if includes contextLower "api" then
    "API"
  else if includes contextLower "security" || includes contextLower "xss"
          || includes contextLower "injection" then
    "Security"
  else if includes contextLower "checkout" then
    "Checkout"
  else "Functional".

(** [formatName] *)
Definition formatName (id : string) : string :=
  join " " (map capitalize
              (split " " (replace_char "_" " " (replace_char "-" " " id))))
  ++ " Tests".

(** The keyword table as the specification words it: an ordered list of
    rows, each with its keywords and its category; the first row one of
    whose keywords occurs in the lower-cased text wins, and [Functional] is
    the default. *)
Definition keyword_table : list (list string * string) :=
  [ (["login"; "auth"], "Authentication");
    (["user"], "User Management");
    (["cart"; "basket"], "Shopping Cart");
    (["product"], "Products");
    (["api"], "API");
    (["security"; "xss"; "injection"], "Security");
    (["checkout"], "Checkout") ].

Definition row_matches (text : string) (row : list string * string) : bool :=
  existsb (includes text) (fst row).

Definition table_category (text : string) : string :=
  match find (row_matches (toLowerCase text)) keyword_table with
  | Some row => snd row
  | None => "Functional"
  end.

(* ===================================================================== *)
(** ** Result normalizer: [processTestResults] *)
(* ===================================================================== *)

(** [l.forEach((x, index) => ...)] threading the state the callback mutates. *)
Fixpoint forEach_from {A St : Type} (f : St -> nat -> A -> St)
         (i : nat) (l : list A) (s : St) : St :=
  match l with
  | [] => s
  | x :: l' => forEach_from f (S i) l' (f s i x)
  end.

Definition forEach {A St : Type} (f : St -> nat -> A -> St) (l : list A) (s : St) : St :=
  forEach_from f 0 l s.

(** [test.pass ? 'passed' : test.fail ? 'failed' : 'skipped'] *)
Definition statusOf (test : Raw.Test) : TestStatus.t :=
  if Raw.pass test then TestStatus.passed
  else if Raw.fail test then TestStatus.failed
  else TestStatus.skipped.

(** [test.duration || 0] *)
Definition durationOf (test : Raw.Test) : Z :=
  match Raw.duration test with
  | Some d => d
  | None => 0
  end.

(** [`${suiteId}-${index}`] *)
Definition testIdOf (suiteId : string) (index : nat) : string :=
  suiteId ++ "-" ++ of_num (Z.of_nat index).

(** The body of [suite.tests.forEach((test, index) => ...)]. *)
Definition processTest (suiteId : string)
           (acc : Processed.t) (index : nat) (test : Raw.Test) : Processed.t :=
  let testId := testIdOf suiteId index in
  let status := statusOf test in
  let summary0 := Processed.summary acc in
  let summary1 :=
    Summary.mk (Summary.total summary0 + 1) (Summary.passed summary0)
               (Summary.failed summary0) (Summary.skipped summary0)
               (Summary.duration summary0) in
  let summary2 := Summary.bump status summary1 in
  let summary3 :=
    Summary.mk (Summary.total summary2) (Summary.passed summary2)
               (Summary.failed summary2) (Summary.skipped summary2)
               (Summary.duration summary2 + durationOf test) in
  let detail :=
    TestResult.mk (Raw.title test) (Raw.fullTitle test) status
                  (durationOf test) (Raw.err test) (Raw.code test)
                  (getCategoryFromContext (Raw.fullTitle test)) in
  let suites1 := JsObject.alter (SuiteResult.bump status) suiteId (Processed.suites acc) in
  let suites2 := JsObject.alter (SuiteResult.set_test testId detail) suiteId suites1 in
  Processed.mk summary3 suites2.

(** The body of [result.suites.forEach(suite => ...)]: the index of the
    inner [forEach] starts at 0 for every [suite]. *)
Definition processSuite (suiteId : string)
           (acc : Processed.t) (_ : nat) (suite : Raw.Suite) : Processed.t :=
  forEach (processTest suiteId) (Raw.tests suite) acc.

(** The body of [rawResults.results.forEach(result => ...)]. The test
    [!processedResults.suites[suiteId]] is the test that [suiteId] is no key
    of [suites] as long as [suiteId] is not the name of a property inherited
    from [Object.prototype] ([is_prototype_key] below); on such a name the
    source finds the inherited property, creates no suite and throws at the
    first test of the block. The properties that depend on the suites of a
    report are stated for reports without such names ([own_suite_ids]). *)
Definition processFile (acc : Processed.t) (_ : nat) (result : Raw.File) : Processed.t :=
  let filePath := Raw.file result in
  let fileName := basename filePath in
  let suiteId := strip_extension fileName in
  let acc1 :=
    match JsObject.get suiteId (Processed.suites acc) with
    | Some _ => acc
    | None =>
        Processed.mk (Processed.summary acc)
          (JsObject.set suiteId
             (SuiteResult.mk (formatName suiteId) fileName 0 0 0 [])
             (Processed.suites acc))
    end in
  forEach (processSuite suiteId) (Raw.suites result) acc1.

Definition processTestResults (rawResults : Raw.Report) : Processed.t :=
  forEach processFile (Raw.results rawResults) (Processed.mk Summary.zero []).

(* ===================================================================== *)
(** ** JavaScript numbers and arrays, as far as the registry uses them *)
(* ===================================================================== *)

Module JsNumber.
Inductive t := NaN | Num (z : Z).

Definition is_space (c : ascii) : bool :=
  let n := nat_of_ascii c in
  ((9 <=? n)%nat && (n <=? 13)%nat) || (n =? 32)%nat.

Definition is_digit (c : ascii) : bool :=
  let n := nat_of_ascii c in (48 <=? n)%nat && (n <=? 57)%nat.

Definition digit_value (c : ascii) : Z := Z.of_nat (nat_of_ascii c - 48).

Fixpoint take_digits (l : list ascii) : list ascii :=
  match l with
  | [] => []
  | c :: l' => if is_digit c then c :: take_digits l' else []
  end.

Definition digits_value (l : list ascii) : Z :=
  fold_left (fun acc c => 10 * acc + digit_value c) l 0.

(** [parseInt(s, 10)]: leading white space is skipped, one sign is read,
    then the longest run of decimal digits; [NaN] when that run is empty. *)
Definition parseInt (s : string) : t :=
  let body := drop_while is_space (chars s) in
  let '(sign, rest) :=
    match body with
    | c :: rest' =>
        if Ascii.eqb c "-"%char then (-1, rest')
        else if Ascii.eqb c "+"%char then (1, rest')
        else (1, body)
    | [] => (1, body)
    end in
  match take_digits rest with
  | [] => NaN
  | ds => Num (sign * digits_value ds)
  end.
End JsNumber.

Module JsArray.
Section Array.
Context {A : Type}.

(** [l.slice(0, end)]: [NaN] counts as 0; a negative [end] counts from the
    end of the array. *)
Definition slice0 (end_ : JsNumber.t) (l : list A) : list A :=
  let len := Z.of_nat (List.length l) in
  let relEnd := match end_ with JsNumber.NaN => 0 | JsNumber.Num z => z end in
  let final := if relEnd <? 0 then Z.max (len + relEnd) 0 else Z.min relEnd len in
  firstn (Z.to_nat final) l.

(** [l.sort(cmp)]: the sort is stable, so for a consistent comparator its
    result is the one of a stable insertion sort. [x] goes before the first
    element it does not have to follow. *)
Fixpoint insert (cmp : A -> A -> Z) (x : A) (l : list A) : list A :=
  match l with
  | [] => [x]
  | y :: l' => if cmp x y <=? 0 then x :: l else y :: insert cmp x l'
  end.

Fixpoint sort (cmp : A -> A -> Z) (l : list A) : list A :=
  match l with
  | [] => []
  | x :: l' => insert cmp x (sort cmp l')
  end.
End Array.
End JsArray.

(* ===================================================================== *)
(** ** Run registry: [testResultsStore] *)
(* ===================================================================== *)

Module testResultsStore.

(** [createRun(runId, config)]; [now] is the reading of [new Date()]. *)
Definition createRun (runId : string) (config : RunConfig) (now : Z)
           (results : JsObject.t Run.t) : JsObject.t Run.t * Run.t :=
  let r := Run.mk runId RunStatus.running now None config Summary.zero [] in
  (JsObject.set runId r results, r).

(** [updateRunStatus(runId, status)] *)
Definition updateRunStatus (runId : string) (status : RunStatus.t) (now : Z)
           (results : JsObject.t Run.t) : JsObject.t Run.t :=
  match JsObject.get runId results with
  | Some r =>
      JsObject.set runId
        (Run.mk (Run.id r) status (Run.startTime r)
                (if RunStatus.is_terminal status then Some now else Run.endTime r)
                (Run.config r) (Run.summary r) (Run.suites r))
        results
  | None => results
  end.

(** [getRun(runId)] *)
Definition getRun (runId : string) (results : JsObject.t Run.t) : option Run.t :=
  JsObject.get runId results.

(** The comparator [(a, b) => new Date(b.startTime) - new Date(a.startTime)]. *)
Definition byStartDesc (a b : Run.t) : Z := Run.startTime b - Run.startTime a.

(** [getRecentRuns(limit = 10)]; [None] is a call without argument. *)
Definition getRecentRuns (limit : option JsNumber.t)
           (results : JsObject.t Run.t) : list Run.t :=
  let limit := match limit with Some n => n | None => JsNumber.Num 10 end in
  JsArray.slice0 limit (JsArray.sort byStartDesc (JsObject.values results)).

End testResultsStore.

(* ===================================================================== *)
(** ** The server: effects, handlers and the [close] callback *)
(* ===================================================================== *)

(** JSON bodies the handlers send. *)
Inductive Response :=
| RunStarted (runId : string) (status : RunStatus.t)
| ErrorBody (error : string)
| StatusBody (id : string) (status : RunStatus.t) (startTime : Z) (endTime : option Z)
| RunBody (run : Run.t)
| RunsBody (runs : list Run.t).

(** What a handler does to the outside, in the order it does it. [Exec] is
    the launch of the child process whose [close] callback captured
    [runId]. *)
Inductive Effect :=
| ResJson (httpStatus : Z) (body : Response)
| ConsoleLog (msg : string)
| ConsoleWarn (msg : string)
| ConsoleError (msg : string)
| Exec (command : string) (runId : string).

(** The state of the process: the registry, the effects so far, and the
    run identifiers captured by the child processes that have not closed
    yet, in launch order. *)
Record World := mkWorld {
  results : JsObject.t Run.t;
  output : list Effect;
  children : list string
}.

Definition server := state World.

Definition emit (e : Effect) : server unit :=
  modify (fun w => mkWorld (results w) (output w ++ [e]) (children w)) ;; ret tt.

Definition res_json (body : Response) : server unit := emit (ResJson 200 body).
Definition console_log (msg : string) : server unit := emit (ConsoleLog msg).
Definition console_warn (msg : string) : server unit := emit (ConsoleWarn msg).
Definition console_error (msg : string) : server unit := emit (ConsoleError msg).

(** [exec(command, ...)] followed by [childProcess.on('close', ...)]. *)
Definition exec (command runId : string) : server unit :=
  emit (Exec command runId) ;;
  modify (fun w => mkWorld (results w) (output w) (children w ++ [runId])) ;;
  ret tt.

Definition createRun (runId : string) (config : RunConfig) (now : Z) : server Run.t :=
  w <- get ;;
  let '(rs, r) := testResultsStore.createRun runId config now (results w) in
  put (mkWorld rs (output w) (children w)) ;;
  ret r.

Definition updateRunStatus (runId : string) (status : RunStatus.t) (now : Z) : server unit :=
  modify (fun w =>
    mkWorld (testResultsStore.updateRunStatus runId status now (results w))
            (output w) (children w)) ;;
  ret tt.

(** The body of a [POST /api/tests/run] request whose [suites] is absent
    or an array (its elements as the template literal renders them), before
    the defaults of the destructuring are applied. [browser] and [mode] are
    strings or absent. *)
Record RunRequest := mkRunRequest {
  req_suites : option (list string);
  req_browser : option string;
  req_mode : option string
}.

Definition default {A : Type} (d : A) (o : option A) : A :=
  match o with Some x => x | None => d end.

(** [`run_${Date.now()}`] *)
Definition newRunId (now : Z) : string := "run_" ++ of_num now.

(** The Cypress command line of a request. *)
Definition cypressCommand (suites : list string) (browser mode : string) : string :=
  let specOption :=
    if (0 <? List.length suites)%nat && negb (String.eqb mode "all") then
      let specPaths := join "," (map (fun suite => "cypress/integration/" ++ suite) suites) in
      "--spec " ++ dquote ++ specPaths ++ dquote
    else "" in
  "npx cypress run --browser " ++ browser ++ " " ++ specOption.

(** [app.post('/api/tests/run', ...)] on such a body. [t_id] is the
    reading of [Date.now()] and [t_start] the one of [new Date()] in
    [createRun]. *)
Definition postRun (body : RunRequest) (t_id t_start : Z) : server unit :=
  let suites := default [] (req_suites body) in
  let browser := default "chrome" (req_browser body) in
  let mode := default "all" (req_mode body) in
  let runId := newRunId t_id in
  testRun <- createRun runId (Config.mk suites browser mode) t_start ;;
  res_json (RunStarted runId RunStatus.running) ;;
  let command := cypressCommand suites browser mode in
  console_log ("Executing: " ++ command) ;;
  exec command runId.

(** Whether the lines that build [specOption] get through when [suites]
    is not an array: [suites.length] throws on [null]; a number or a boolean
    has no [length], so the test of the [if] fails; when the test holds, for
    a string or an object, [suites.map] is no function and the call
    throws. *)
Definition otherSuitesPass (suites : OtherSuites) (mode : string) : bool :=
  match suites with
  | SuitesNull => false
  | SuitesScalar => true
  | SuitesText s => negb ((0 <? String.length s)%nat && negb (String.eqb mode "all"))
  | SuitesObject lengthPositive => negb (lengthPositive && negb (String.eqb mode "all"))
  end.

(** [app.post('/api/tests/run', ...)] on a body whose [suites] is not an
    array: the run is registered and answered as for any body; then either
    the exception leaves the handler, and no child process is launched, or
    [specOption] stays empty. What Express does with the exception is not
    modelled. *)
Definition postRunOther (suites : OtherSuites) (browser mode : option string)
           (t_id t_start : Z) : server unit :=
  let browser := default "chrome" browser in
  let mode := default "all" mode in
  let runId := newRunId t_id in
  testRun <- createRun runId (Untyped suites browser mode) t_start ;;
  res_json (RunStarted runId RunStatus.running) ;;
  if otherSuitesPass suites mode then
    let specOption := "" in
    let command := "npx cypress run --browser " ++ browser ++ " " ++ specOption in
    console_log ("Executing: " ++ command) ;;
    exec command runId
  else ret tt.

(** What the [close] callback finds at [RESULTS_DIR/mochawesome.json]:
    no file; a file that makes [readJSON] or [processTestResults] throw;
    or a report. *)
Inductive ReportFile :=
| NoReport
| BadReport
| Report (rawResults : Raw.Report).

(** [testResultsStore.results[runId] =
       { ...testResultsStore.results[runId], ...processedResults, status: 'completed' }].
    The record is in the registry whenever the callback runs
    ([pending_child_has_record] below); the registry is left as it is
    otherwise. *)
Definition mergeResults (runId : string) (p : Processed.t) : server unit :=
  modify (fun w =>
    match JsObject.get runId (results w) with
    | Some r =>
        mkWorld
          (JsObject.set runId
             (Run.mk (Run.id r) RunStatus.completed (Run.startTime r) (Run.endTime r)
                     (Run.config r) (Processed.summary p) (Processed.suites p))
             (results w))
          (output w) (children w)
    | None => w
    end) ;;
  ret tt.

Definition code_text (code : option Z) : string :=
  match code with Some c => of_num c | None => "null" end.

(** The [close] callback of the child process of run [runId]. [code] is
    the exit code ([None] is [null]: the child was killed by a signal);
    [now] is the reading of [new Date()] in [updateRunStatus]. *)
Definition onClose (runId : string) (code : option Z) (report : ReportFile)
           (now : Z) : server unit :=
  match code with
  | Some 0 =>
      match report with
      | Report rawResults =>
          let processedResults := processTestResults rawResults in
          mergeResults runId processedResults
      | NoReport =>
          updateRunStatus runId RunStatus.completed now ;;
          console_warn "No results file found, test may have been empty."
      | BadReport =>
          console_error "Error processing test results:" ;;
          updateRunStatus runId RunStatus.error now
      end
  | _ =>
      updateRunStatus runId RunStatus.error now ;;
      console_error ("Cypress exited with code " ++ code_text code)
  end.

(** [app.get('/api/tests/status/:runId', ...)] *)
Definition getStatus (runId : string) (w : World) : Effect :=
  match testResultsStore.getRun runId (results w) with
  | None => ResJson 404 (ErrorBody "Test run not found")
  | Some testRun =>
      ResJson 200 (StatusBody (Run.id testRun) (Run.status testRun)
                              (Run.startTime testRun) (Run.endTime testRun))
  end.

(** [app.get('/api/tests/results/:runId', ...)] *)
Definition getResults (runId : string) (w : World) : Effect :=
  match testResultsStore.getRun runId (results w) with
  | None => ResJson 404 (ErrorBody "Test run not found")
  | Some testRun => ResJson 200 (RunBody testRun)
  end.

(** [app.get('/api/tests/recent', ...)]: [limit] is [req.query.limit]; the
    default 10 of the destructuring is converted to the string [10] by
    [parseInt]. *)
Definition recentRuns (limit : option string) (w : World) : list Run.t :=
  let limit := default "10" limit in
  testResultsStore.getRecentRuns (Some (JsNumber.parseInt limit)) (results w).


(* ===================================================================== *)
(** ** The process as a transition system *)
(* ===================================================================== *)

(** A request arrives, or the [k]-th pending child process closes.
    [PostOther] is a request whose [suites] is not an array. *)
Inductive Event :=
| PostRun (body : RunRequest) (t_id t_start : Z)
| Close (k : nat) (code : option Z) (report : ReportFile) (now : Z)
| PostOther (suites : OtherSuites) (browser mode : option string) (t_id t_start : Z).

Definition initial : World := mkWorld [] [] [].

(** [l] without its [k]-th element. *)
Fixpoint remove_nth {A : Type} (k : nat) (l : list A) : list A :=
  match l, k with
  | [], _ => []
  | _ :: l', O => l'
  | x :: l', S k' => x :: remove_nth k' l'
  end.

Definition step (w : World) (e : Event) : option World :=
  match e with
  | PostRun body t_id t_start => Some (execState (postRun body t_id t_start) w)
  | Close k code report now =>
      match nth_error (children w) k with
      | Some runId =>
          Some (execState (onClose runId code report now)
                          (mkWorld (results w) (output w) (remove_nth k (children w))))
      | None => None
      end
  | PostOther suites browser mode t_id t_start =>
      Some (execState (postRunOther suites browser mode t_id t_start) w)
  end.

Fixpoint run (w : World) (tr : list Event) : option World :=
  match tr with
  | [] => Some w
  | e :: tr' =>
      match step w e with
      | Some w' => run w' tr'
      | None => None
      end
  end.

(** The identifiers the server has answered with, oldest first. *)
Definition started (w : World) : list string :=
  flat_map (fun e => match e with
                     | ResJson _ (RunStarted runId _) => [runId]
                     | _ => []
                     end) (output w).

(** The clock readings the identifiers of a trace were made from. *)
Definition post_times (tr : list Event) : list Z :=
  flat_map (fun e => match e with
                     | PostRun _ t_id _ => [t_id]
                     | Close _ _ _ _ => []
                     | PostOther _ _ _ t_id _ => [t_id]
                     end) tr.

(* ===================================================================== *)
(** ** Spec inventory reader: [getSpecFiles], [parseSpecFile] *)
(* ===================================================================== *)

(** [l] starts with [k]. *)
Fixpoint starts_with (k l : list ascii) : bool :=
  match k, l with
  | [], _ => true
  | _ :: _, [] => false
  | a :: k', b :: l' => Ascii.eqb a b && starts_with k' l'
  end.

(** [s.endsWith(suffix)] *)
Definition endsWith (s suffix : string) : bool :=
  starts_with (rev (chars suffix)) (rev (chars s)).

(** [getSpecFiles]: [files] is what [fs.readdir(specDir)] gives. *)
Definition getSpecFiles (files : list string) : list string :=
  filter (fun file => endsWith file ".js" || endsWith file ".ts") files.

(** The character classes of the regular expressions: the class of the
    two quote characters, the line terminators that [.] does not match, and
    [\s] (which is [JsNumber.is_space]). *)
Definition is_quote (c : ascii) : bool :=
  Ascii.eqb c "'"%char || Ascii.eqb c (ascii_of_nat 34).

Definition is_line_terminator (c : ascii) : bool :=
  Ascii.eqb c (ascii_of_nat 10) || Ascii.eqb c (ascii_of_nat 13).

(** The tail of the lazy group [(.+?)] and the quote that ends it, once
    the first character of the group is read: the group is extended, one character that is not a line
    terminator at a time, until a quote follows. Gives the rest of the group
    and the number of characters read, closing quote included. *)
Fixpoint lazy_until_quote (l : list ascii) : option (list ascii * nat) :=
  match l with
  | [] => None
  | c :: l' =>
      if is_quote c then Some ([], 1%nat)
      else if is_line_terminator c then None
      else match lazy_until_quote l' with
           | Some (g, n) => Some (c :: g, S n)
           | None => None
           end
  end.

(** A match, at the start of [l], of the regular expression made of [kw],
    an opening parenthesis, a quote, the lazy group [(.+?)] and a quote
    (the [itRegex] of [parseSpecFile] for [kw = it]): group 1 and the length
    of the match. *)
Definition match_call (kw : string) (l : list ascii) : option (list ascii * nat) :=
  let opening := (chars kw ++ ["("%char])%list in
  if starts_with opening l then
    match skipn (List.length opening) l with
    | q :: c0 :: rest =>
        if is_quote q && negb (is_line_terminator c0) then
          match lazy_until_quote rest with
          | Some (g, n) => Some (c0 :: g, (List.length opening + 2 + n)%nat)
          | None => None
          end
        else None
    | _ => None
    end
  else None.

(** The groups of the successive matches of that expression in [l] under
    the [g] flag, as the loop [while ((match = re.exec(content)) !== null)] sees them:
    each search starts where the previous match ended. [skip] counts the
    characters of the current match still to pass. *)
Fixpoint scan_calls (kw : string) (skip : nat) (l : list ascii) : list (list ascii) :=
  match l with
  | [] => []
  | _ :: l' =>
      match skip with
      | S k => scan_calls kw k l'
      | O =>
          match match_call kw l with
          | Some (g, n) => g :: scan_calls kw (n - 1) l'
          | None => scan_calls kw 0 l'
          end
      end
  end.

(** The end of [descriptionRegex] matches at the start of [l]: the two
    characters that close a comment, any white space, then [describe]. *)
Definition closes_doc (l : list ascii) : bool :=
  starts_with (chars "*/") l &&
  starts_with (chars "describe") (drop_while JsNumber.is_space (skipn 2 l)).

(** The lazy group of [descriptionRegex] with what follows it, at the
    start of [l]: group 1 is the shortest text after which a comment closes
    in front of [describe]. *)
Fixpoint lazy_doc_body (l : list ascii) : option (list ascii) :=
  if closes_doc l then Some []
  else match l with
       | [] => None
       | c :: l' =>
           match lazy_doc_body l' with
           | Some g => Some (c :: g)
           | None => None
           end
       end.

(** [descriptionRegex.exec(content)]: group 1 of the leftmost match, which
    starts with a slash and two stars. *)
Fixpoint first_doc (l : list ascii) : option (list ascii) :=
  match (if starts_with (chars "/**") l then lazy_doc_body (skipn 3 l) else None) with
  | Some g => Some g
  | None =>
      match l with
      | [] => None
      | _ :: l' => first_doc l'
      end
  end.

Fixpoint take_while (p : ascii -> bool) (l : list ascii) : list ascii :=
  match l with
  | [] => []
  | c :: l' => if p c then c :: take_while p l' else []
  end.

(** The length of a match, at the start of [l], of white space, one star
    and white space (both runs as long as possible). *)
Definition star_match (l : list ascii) : option nat :=
  let before := List.length (take_while JsNumber.is_space l) in
  match skipn before l with
  | c :: r =>
      if Ascii.eqb c "*"%char
      then Some (before + 1 + List.length (take_while JsNumber.is_space r))%nat
      else None
  | [] => None
  end.

(** [s.replace(re, ' ')] for the global expression of [star_match]. *)
Fixpoint replace_stars (skip : nat) (l : list ascii) : list ascii :=
  match l with
  | [] => []
  | c :: l' =>
      match skip with
      | S k => replace_stars k l'
      | O =>
          match star_match l with
          | Some n => " "%char :: replace_stars (n - 1) l'
          | None => c :: replace_stars 0 l'
          end
      end
  end.

(** [s.trim()] *)
Definition trim (l : list ascii) : list ascii :=
  rev (drop_while JsNumber.is_space (rev (drop_while JsNumber.is_space l))).

(** [getDescriptionFromFile]; an empty group 1 is falsy and falls through
    to the fallback. *)
Definition getDescriptionFromFile (content : string) : string :=
  match first_doc (chars content) with
  | Some (c :: g) => of_chars (trim (replace_stars 0 (c :: g)))
  | _ =>
      match scan_calls "describe" 0 (chars content) with
      | describeMatch :: _ => "Tests for " ++ of_chars describeMatch
      | [] => "Cypress test suite"
      end
  end.

(** One entry of [tests] of a suite descriptor, and the descriptor. *)
Module TestDescriptor.
Record t := mk { id : string; name : string; category : string }.
End TestDescriptor.

Module SuiteDescriptor.
Record t := mk {
  id : string;
  name : string;
  file : string;
  description : string;
  tests : list TestDescriptor.t
}.
End SuiteDescriptor.

(** The loop of [parseSpecFile]: every match pushes a test whose index is
    [tests.length] at that moment. *)
Definition pushTest (filename suiteId : string)
           (tests : list TestDescriptor.t) (testName : list ascii) : list TestDescriptor.t :=
  (tests ++ [TestDescriptor.mk (testIdOf suiteId (List.length tests))
                               (of_chars testName)
                               (getCategoryFromFilename filename)])%list.

(** [parseSpecFile(filename)]; [content] is what [fs.readFile] gives. *)
Definition parseSpecFile (filename content : string) : SuiteDescriptor.t :=
  let suiteId := strip_extension filename in
  let suiteName := formatName suiteId in
  let tests := fold_left (pushTest filename suiteId)
                         (scan_calls "it" 0 (chars content)) [] in
  SuiteDescriptor.mk suiteId suiteName filename (getDescriptionFromFile content) tests.

(** The answer of [GET /api/suites]. *)
Inductive SuitesResponse :=
| SuitesOk (suites : list SuiteDescriptor.t)
| SuitesError (httpStatus : Z) (error : string).

(** [Promise.all(specFiles.map(parseSpecFile))]: [None] as soon as one
    file cannot be read. [read] is the file system: the content of a file,
    or [None] when [fs.readFile] rejects. *)
Fixpoint parseAll (read : string -> option string) (specFiles : list string)
  : option (list SuiteDescriptor.t) :=
  match specFiles with
  | [] => Some []
  | filename :: rest =>
      match read filename, parseAll read rest with
      | Some content, Some suites => Some (parseSpecFile filename content :: suites)
      | _, _ => None
      end
  end.

(** [app.get('/api/suites', ...)]; [dir] is what [fs.readdir] gives, [None]
    when it rejects. *)
Definition getSuites (dir : option (list string)) (read : string -> option string)
  : SuitesResponse :=
  match dir with
  | None => SuitesError 500 "Failed to fetch test suites"
  | Some files =>
      match parseAll read (getSpecFiles files) with
      | Some suites => SuitesOk suites
      | None => SuitesError 500 "Failed to fetch test suites"
      end
  end.

(* ===================================================================== *)
(** ** Vocabulary of the properties *)
(* ===================================================================== *)

(** The tests of a report in the order [processTestResults] visits them. *)
Definition file_tests (f : Raw.File) : list Raw.Test :=
  flat_map Raw.tests (Raw.suites f).

Definition all_tests (raw : Raw.Report) : list Raw.Test :=
  flat_map file_tests (Raw.results raw).

Definition has_status (st : TestStatus.t) (t : Raw.Test) : bool :=
  match statusOf t, st with
  | TestStatus.passed, TestStatus.passed
  | TestStatus.failed, TestStatus.failed
  | TestStatus.skipped, TestStatus.skipped => true
  | _, _ => false
  end.

Definition count_status (st : TestStatus.t) (l : list Raw.Test) : Z :=
  Z.of_nat (List.length (filter (has_status st) l)).

Definition total_duration (l : list Raw.Test) : Z :=
  fold_right (fun t acc => durationOf t + acc) 0 l.

(** The summary [s] after the tests [l] have been counted into it. *)
Definition add_tests (s : Summary.t) (l : list Raw.Test) : Summary.t :=
  Summary.mk (Summary.total s + Z.of_nat (List.length l))
             (Summary.passed s + count_status TestStatus.passed l)
             (Summary.failed s + count_status TestStatus.failed l)
             (Summary.skipped s + count_status TestStatus.skipped l)
             (Summary.duration s + total_duration l).

(** A report with one file whose two nested suites hold one test each. *)
Definition two_nested_suites : Raw.Report :=
  Raw.mkReport
    [Raw.mkFile "cypress/integration/login.spec.js"
       [Raw.mkSuite [Raw.mkTest "logs in" "Login logs in" true false (Some 150) None ""];
        Raw.mkSuite [Raw.mkTest "rejects" "Login errors rejects" false true (Some 90) None ""]]].

(** Start times in descending order. *)
Definition desc (a b : Run.t) : Prop := Run.startTime b <= Run.startTime a.

(** Registries made by [createRun] at the given clock readings, and the
    property of truncation at a limit. *)
Definition run_at (t : Z) : Run.t :=
  Run.mk (newRunId t) RunStatus.running t None (Config.mk [] "chrome" "all")
         Summary.zero [].

Definition registry_of (ts : list Z) : JsObject.t Run.t :=
  fold_left (fun rs t => fst (testResultsStore.createRun (newRunId t)
                                (Config.mk [] "chrome" "all") t rs)) ts [].

Definition at_most_limit (n : Z) (rs : JsObject.t Run.t) : Prop :=
  Z.of_nat (List.length (testResultsStore.getRecentRuns (Some (JsNumber.Num n)) rs)) <= n.


(** A request with its defaults, and the state one request leaves. *)
Definition some_request : RunRequest :=
  mkRunRequest (Some ["login.spec.js"]) None (Some "selected").

Definition one_run_pending : World := execState (postRun some_request 5 5) initial.


Definition requestConfig (body : RunRequest) : Config.t :=
  Config.mk (default [] (req_suites body)) (default "chrome" (req_browser body))
            (default "all" (req_mode body)).

(** What holds in every state reached without two requests reading the
    same millisecond; [seen] lists the readings so far. *)
Record consistent (seen : list Z) (w : World) : Prop := {
  keys_seen : forall id, In id (JsObject.keys (results w)) ->
                         exists t, In t seen /\ id = newRunId t;
  children_distinct : NoDup (children w);
  child_registered : forall id, In id (children w) ->
                                exists r, JsObject.get id (results w) = Some r /\
                                          Run.status r = RunStatus.running /\
                                          Run.summary r = Summary.zero
}.

(** The tests a suite of the result counted, and the tests counted by all
    the suites of a result. *)
Definition suite_count (s : SuiteResult.t) : Z :=
  SuiteResult.passed s + SuiteResult.failed s + SuiteResult.skipped s.

Definition suites_count (o : JsObject.t SuiteResult.t) : Z :=
  fold_right (fun kv acc => suite_count (snd kv) + acc) 0 o.

(** A suite holds no more test entries than it counted, and its counters
    are not negative. *)
Definition suite_sound (s : SuiteResult.t) : Prop :=
  0 <= SuiteResult.passed s /\ 0 <= SuiteResult.failed s /\
  0 <= SuiteResult.skipped s /\
  Z.of_nat (List.length (SuiteResult.tests s)) <= suite_count s.

(** The entry [processTest] stores for a test, and the entries of the tests
    [l] numbered from [i]. *)
Definition detailOf (test : Raw.Test) : TestResult.t :=
  TestResult.mk (Raw.title test) (Raw.fullTitle test) (statusOf test)
                (durationOf test) (Raw.err test) (Raw.code test)
                (getCategoryFromContext (Raw.fullTitle test)).

Fixpoint entries_from (suiteId : string) (i : nat) (l : list Raw.Test)
  : JsObject.t TestResult.t :=
  match l with
  | [] => []
  | t :: l' => (testIdOf suiteId i, detailOf t) :: entries_from suiteId (S i) l'
  end.

(** [formatName] character by character: [-] and [_] become spaces, the
    first character of every word is upper-cased ([start] tells whether a
    word starts here), everything else is kept. *)
Fixpoint title_case (start : bool) (l : list ascii) : list ascii :=
  match l with
  | [] => []
  | c :: l' =>
      if Ascii.eqb c "-"%char || Ascii.eqb c "_"%char || Ascii.eqb c " "%char
      then " "%char :: title_case true l'
      else (if start then upper_char c else c) :: title_case false l'
  end.

(** Neither a slash nor, for [plain_extension], a dot occurs in [s]. *)
Definition no_slash (s : string) : bool :=
  forallb (fun c => negb (is_slash c)) (chars s).

Definition plain_extension (s : string) : bool :=
  negb (String.eqb s "") && forallb (fun c => negb (is_dot c || is_slash c)) (chars s).

(** The record of every key carries that key as its [id]. *)
Definition ids_match_keys (rs : JsObject.t Run.t) : Prop :=
  forall k r, JsObject.get k rs = Some r -> Run.id r = k.

(** The [close] events of a trace, and the commands it launches. *)
Definition closes (tr : list Event) : nat :=
  List.length (filter (fun e => match e with Close _ _ _ _ => true | _ => false end) tr).

Definition launches (w : World) : list (string * string) :=
  flat_map (fun e => match e with
                     | Exec command runId => [(command, runId)]
                     | _ => []
                     end) (output w).

Definition requested_launches (tr : list Event) : list (string * string) :=
  flat_map (fun e => match e with
                     | PostRun body t_id _ =>
                         let cfg := requestConfig body in
                         [(cypressCommand (Config.suites cfg) (Config.browser cfg)
                                          (Config.mode cfg), newRunId t_id)]
                     | Close _ _ _ _ => []
                     | PostOther suites browser mode t_id _ =>
                         if otherSuitesPass suites (default "all" mode)
                         then [("npx cypress run --browser " ++ default "chrome" browser
                                  ++ " ", newRunId t_id)]
                         else []
                     end) tr.

(** Every answered identifier has a record, and every record carries its
    key. *)
Definition answered_are_registered (w : World) : Prop :=
  ids_match_keys (results w) /\
  forall id, In id (started w) -> exists r, JsObject.get id (results w) = Some r.

(** What [processTestResults] keeps true of its accumulator. *)
Record normalizing (acc : Processed.t) : Prop := {
  counted : suites_count (Processed.suites acc) = Summary.total (Processed.summary acc);
  sound : Forall (fun kv => suite_sound (snd kv)) (Processed.suites acc);
  named : forall k s, JsObject.get k (Processed.suites acc) = Some s ->
                      SuiteResult.name s = formatName k
}.

(** Whether the handler of the request that made a record got through
    the lines that build the command, read off the [config] of the record. *)
Definition configLaunches (config : RunConfig) : bool :=
  match config with
  | Typed _ => true
  | Untyped suites _ mode => otherSuitesPass suites mode
  end.

(** What the status of a record tells, in states reached without two
    requests reading the same millisecond: a [running] record has no end
    time and, when its request launched a child process, that child is
    pending; the record of a request that launched nothing stays [running]
    and has no child; a record that is not [completed] has an all-zero
    summary and no suites; an [error] record has an end time. *)
Definition status_tells (w : World) : Prop :=
  forall id r,
    JsObject.get id (results w) = Some r ->
    (Run.status r = RunStatus.running ->
     Run.endTime r = None /\
     (configLaunches (Run.config r) = true -> In id (children w))) /\
    (configLaunches (Run.config r) = false ->
     Run.status r = RunStatus.running /\ ~ In id (children w)) /\
    (Run.status r <> RunStatus.completed ->
     Run.summary r = Summary.zero /\ Run.suites r = []) /\
    (Run.status r = RunStatus.error -> Run.endTime r <> None).

(** The names of the properties every object inherits from
    [Object.prototype]: [o[k]] finds them although [k] is no key of [o]. *)
Definition is_prototype_key (k : string) : bool :=
  existsb (String.eqb k)
          ["constructor"; "hasOwnProperty"; "isPrototypeOf"; "propertyIsEnumerable";
           "toLocaleString"; "toString"; "valueOf"; "__proto__";
           "__defineGetter__"; "__defineSetter__"; "__lookupGetter__";
           "__lookupSetter__"].

(** No file block of the report has such a name as suite identifier; then
    the test [!processedResults.suites[suiteId]] is the test that [suiteId]
    is no key of [suites]. *)
Definition own_suite_ids (rawResults : Raw.Report) : bool :=
  forallb (fun f => negb (is_prototype_key (strip_extension (basename (Raw.file f)))))
          (Raw.results rawResults).

(** Every character of [s] is an ASCII character (below 128). *)
Definition ascii_only (s : string) : bool :=
  forallb (fun c => (nat_of_ascii c <? 128)%nat) (chars s).

(* ===================================================================== *)
(** * Properties *)
(* ===================================================================== *)

(** ** Dictionaries *)

Section DictFacts.
Context {V : Type}.
Implicit Types (o : list (string * V)) (k : string) (v : V).

Lemma get_set_eq k v o : JsObject.get k (JsObject.set k v o) = Some v.
Proof.
  induction o as [|[k' v'] o IH]; simpl.
  - now rewrite String.eqb_refl.
  - destruct (String.eqb k k') eqn:E; simpl; rewrite E; auto.
Qed.

Lemma get_set_ne k k' v o :
  k <> k' -> JsObject.get k' (JsObject.set k v o) = JsObject.get k' o.
Proof.
  intros Hne. induction o as [|[k0 v0] o IH]; simpl.
  - destruct (String.eqb_spec k' k); congruence.
  - destruct (String.eqb_spec k k0) as [->|Hk]; simpl.
    + destruct (String.eqb_spec k' k0); congruence.
    + destruct (String.eqb_spec k' k0); auto.
Qed.

Lemma get_In_keys k o v : JsObject.get k o = Some v -> In k (JsObject.keys o).
Proof.
  induction o as [|[k0 v0] o IH]; simpl; [discriminate|].
  destruct (String.eqb_spec k k0) as [->|Hk]; auto.
Qed.

Lemma keys_set k v o x :
  In x (JsObject.keys (JsObject.set k v o)) <-> x = k \/ In x (JsObject.keys o).
Proof.
  induction o as [|[k0 v0] o IH]; simpl.
  - intuition.
  - destruct (String.eqb_spec k k0) as [->|Hk]; simpl.
    + intuition.
    + rewrite IH. intuition.
Qed.

Lemma length_set_present k v v0 o :
  JsObject.get k o = Some v0 -> List.length (JsObject.set k v o) = List.length o.
Proof.
  induction o as [|[k0 v1] o IH]; simpl; [discriminate|].
  destruct (String.eqb_spec k k0); simpl; auto.
Qed.
End DictFacts.

(** ** Decimal rendering and run identifiers *)

Lemma of_num_inj (a b : Z) : of_num a = of_num b -> a = b.
Proof.
  unfold of_num. intros H.
  apply DecimalZ.to_int_inj.
  assert (Hn : forall z, NilZero.int_of_string (NilZero.string_of_int (Z.to_int z))
                         = Some (Z.to_int z)).
  { intros z. apply NilZero.isi; destruct z as [|p|p]; simpl; try discriminate;
      intros E; injection E as E; now apply DecimalPos.Unsigned.to_uint_nonnil in E. }
  pose proof (Hn a) as Ha. rewrite H, Hn in Ha. congruence.
Qed.

Lemma newRunId_inj (t1 t2 : Z) : newRunId t1 = newRunId t2 -> t1 = t2.
Proof.
  unfold newRunId. simpl. intros H. injection H as H. now apply of_num_inj.
Qed.

(** ** The handlers, computed *)

Lemma postRun_exec body t_id t_start w :
  let suites := default [] (req_suites body) in
  let browser := default "chrome" (req_browser body) in
  let mode := default "all" (req_mode body) in
  let runId := newRunId t_id in
  let command := cypressCommand suites browser mode in
  execState (postRun body t_id t_start) w =
  mkWorld
    (JsObject.set runId
       (Run.mk runId RunStatus.running t_start None
               (Config.mk suites browser mode) Summary.zero [])
       (results w))
    (((output w ++ [ResJson 200 (RunStarted runId RunStatus.running)])
        ++ [ConsoleLog ("Executing: " ++ command)])
        ++ [Exec command runId])
    (children w ++ [runId]).
Proof. reflexivity. Qed.

Lemma postRunOther_exec suites browser mode t_id t_start w :
  let b := default "chrome" browser in
  let m := default "all" mode in
  let runId := newRunId t_id in
  let command := "npx cypress run --browser " ++ b ++ " " in
  execState (postRunOther suites browser mode t_id t_start) w =
  mkWorld
    (JsObject.set runId
       (Run.mk runId RunStatus.running t_start None (Untyped suites b m) Summary.zero [])
       (results w))
    (if otherSuitesPass suites m
     then (((output w ++ [ResJson 200 (RunStarted runId RunStatus.running)])
              ++ [ConsoleLog ("Executing: " ++ command)])
              ++ [Exec command runId])
     else output w ++ [ResJson 200 (RunStarted runId RunStatus.running)])
    (if otherSuitesPass suites m then children w ++ [runId] else children w).
Proof.
  cbv zeta. unfold postRunOther.
  destruct (otherSuitesPass suites (default "all" mode)); reflexivity.
Qed.

Lemma onClose_error_exec runId code report now w :
  code <> Some 0 ->
  execState (onClose runId code report now) w =
  mkWorld (testResultsStore.updateRunStatus runId RunStatus.error now (results w))
          (output w ++ [ConsoleError ("Cypress exited with code " ++ code_text code)])
          (children w).
Proof.
  intros Hc. destruct code as [[|p|p]|]; try congruence; reflexivity.
Qed.

Lemma onClose_missing_exec runId now w :
  execState (onClose runId (Some 0) NoReport now) w =
  mkWorld (testResultsStore.updateRunStatus runId RunStatus.completed now (results w))
          (output w ++ [ConsoleWarn "No results file found, test may have been empty."])
          (children w).
Proof. reflexivity. Qed.

Lemma onClose_bad_exec runId now w :
  execState (onClose runId (Some 0) BadReport now) w =
  mkWorld (testResultsStore.updateRunStatus runId RunStatus.error now (results w))
          (output w ++ [ConsoleError "Error processing test results:"])
          (children w).
Proof. reflexivity. Qed.

Lemma onClose_report_exec runId raw now w r :
  JsObject.get runId (results w) = Some r ->
  execState (onClose runId (Some 0) (Report raw) now) w =
  mkWorld
    (JsObject.set runId
       (Run.mk (Run.id r) RunStatus.completed (Run.startTime r) (Run.endTime r)
               (Run.config r)
               (Processed.summary (processTestResults raw))
               (Processed.suites (processTestResults raw)))
       (results w))
    (output w) (children w).
Proof.
  intros Hr. unfold onClose, mergeResults. cbn. now rewrite Hr.
Qed.

(** ** Category inference *)

(** C8. Both category helpers follow the ordered keyword table (login/auth,
    user, cart/basket, product, api, security/xss/injection, checkout, else
    Functional), the first matching row winning; [sql-injection.spec] (and
    the title "should test basic SQL injection") is Security and
    [user-management.spec] is User Management. *)
Theorem category_follows_keyword_table :
  (forall filename, getCategoryFromFilename filename = table_category filename) /\
  (forall context, getCategoryFromContext context = table_category context) /\
  getCategoryFromFilename "sql-injection.spec" = "Security" /\
  getCategoryFromContext "should test basic SQL injection" = "Security" /\
  getCategoryFromFilename "user-management.spec" = "User Management".
Proof.
  assert (Htab : forall text,
             table_category text =
             let t := toLowerCase text in
             if includes t "login" || includes t "auth" then "Authentication"
             else if includes t "user" then "User Management"
             else if includes t "cart" || includes t "basket" then "Shopping Cart"
             else if includes t "product" then "Products"
             else if includes t "api" then "API"
             else if includes t "security" || includes t "xss"
                     || includes t "injection" then "Security"
             else if includes t "checkout" then "Checkout"
             else "Functional").
  { intros text. unfold table_category, keyword_table, row_matches.
    cbn [find existsb fst snd].
    generalize (toLowerCase text); intros t. cbv zeta.
    repeat match goal with
           | |- context [includes t ?k] => destruct (includes t k); cbn [orb find snd]
           end; reflexivity. }
  repeat split.
  - intros filename. now rewrite Htab.
  - intros context. now rewrite Htab.
Qed.

(** ** Result normalizer *)

Lemma add_tests_nil s : add_tests s [] = s.
Proof.
  destruct s. unfold add_tests, count_status. simpl. f_equal; lia.
Qed.

Lemma add_tests_app s l1 l2 :
  add_tests s (l1 ++ l2) = add_tests (add_tests s l1) l2.
Proof.
  unfold add_tests, count_status, total_duration. simpl.
  rewrite !filter_app, !length_app, fold_right_app.
  f_equal; try lia.
  induction l1 as [|t l1 IH]; simpl; lia.
Qed.

Lemma summary_processTest suiteId acc i t :
  Processed.summary (processTest suiteId acc i t) =
  add_tests (Processed.summary acc) [t].
Proof.
  unfold processTest, add_tests, count_status, has_status. simpl.
  destruct (statusOf t); simpl; f_equal; lia.
Qed.

Lemma summary_tests suiteId l : forall i acc,
  Processed.summary (forEach_from (processTest suiteId) i l acc) =
  add_tests (Processed.summary acc) l.
Proof.
  induction l as [|t l IH]; intros i acc; simpl.
  - now rewrite add_tests_nil.
  - rewrite IH, summary_processTest.
    now rewrite <- add_tests_app.
Qed.

Lemma summary_suites suiteId l : forall i acc,
  Processed.summary (forEach_from (processSuite suiteId) i l acc) =
  add_tests (Processed.summary acc) (flat_map Raw.tests l).
Proof.
  induction l as [|s l IH]; intros i acc; simpl.
  - now rewrite add_tests_nil.
  - rewrite IH. unfold processSuite, forEach.
    now rewrite summary_tests, <- add_tests_app.
Qed.

Lemma summary_processFile acc i f :
  Processed.summary (processFile acc i f) =
  add_tests (Processed.summary acc) (file_tests f).
Proof.
  unfold processFile, forEach, file_tests. rewrite summary_suites.
  now destruct (JsObject.get _ _).
Qed.

Lemma summary_files l : forall i acc,
  Processed.summary (forEach_from processFile i l acc) =
  add_tests (Processed.summary acc) (flat_map file_tests l).
Proof.
  induction l as [|f l IH]; intros i acc; simpl.
  - now rewrite add_tests_nil.
  - now rewrite IH, summary_processFile, <- add_tests_app.
Qed.

Lemma count_status_partition l :
  Z.of_nat (List.length l) =
  count_status TestStatus.passed l + count_status TestStatus.failed l
  + count_status TestStatus.skipped l.
Proof.
  unfold count_status, has_status.
  induction l as [|t l IH]; [reflexivity|].
  cbn [filter]. destruct (statusOf t); cbn [List.length];
    rewrite !Nat2Z.inj_succ; lia.
Qed.

(** C5. The summary [processTestResults] returns has
    [total = passed + failed + skipped]; the counters are the numbers of
    tests of the report of each status, where a test with the pass flag set
    is passed, else one with the fail flag set is failed, else it is
    skipped. *)
Theorem summary_total_is_sum_of_statuses (rawResults : Raw.Report) :
  let s := Processed.summary (processTestResults rawResults) in
  Summary.total s = Summary.passed s + Summary.failed s + Summary.skipped s /\
  Summary.total s = Z.of_nat (List.length (all_tests rawResults)) /\
  Summary.passed s = count_status TestStatus.passed (all_tests rawResults) /\
  Summary.failed s = count_status TestStatus.failed (all_tests rawResults) /\
  Summary.skipped s = count_status TestStatus.skipped (all_tests rawResults) /\
  (forall test,
      statusOf test =
      match Raw.pass test, Raw.fail test with
      | true, _ => TestStatus.passed
      | false, true => TestStatus.failed
      | false, false => TestStatus.skipped
      end).
Proof.
  unfold processTestResults, forEach. rewrite summary_files. cbn zeta.
  fold (all_tests rawResults). unfold add_tests. simpl.
  pose proof (count_status_partition (all_tests rawResults)).
  repeat split; lia.
Qed.

(** After a [close] with code 0 and a report, the record of the run is
    [completed] and carries the summary and the suites of the report. *)
Lemma completed_run_carries_report w k runId r raw now :
  nth_error (children w) k = Some runId ->
  testResultsStore.getRun runId (results w) = Some r ->
  exists w' r',
    step w (Close k (Some 0) (Report raw) now) = Some w' /\
    testResultsStore.getRun runId (results w') = Some r' /\
    Run.status r' = RunStatus.completed /\
    Run.summary r' = Processed.summary (processTestResults raw) /\
    Run.suites r' = Processed.suites (processTestResults raw).
Proof.
  intros Hk Hr. unfold step. rewrite Hk.
  rewrite (onClose_report_exec _ _ _ _ r) by exact Hr.
  do 2 eexists. split; [reflexivity|]. cbn [results].
  unfold testResultsStore.getRun. rewrite get_set_eq. repeat split.
Qed.

(** C4. On a file block with two nested suites the index restarts: both
    tests get the identifier [login.spec-0], the entry of the second one
    replaces the entry of the first, and the suite that counted two tests
    keeps one test entry. *)
Theorem nested_suites_restart_test_index :
  let suites := Processed.suites (processTestResults two_nested_suites) in
  exists s d,
    JsObject.get "login.spec" suites = Some s /\
    SuiteResult.passed s + SuiteResult.failed s + SuiteResult.skipped s = 2 /\
    JsObject.keys (SuiteResult.tests s) = ["login.spec-0"] /\
    JsObject.get "login.spec-0" (SuiteResult.tests s) = Some d /\
    TestResult.name d = "rejects" /\
    JsObject.get "login.spec-1" (SuiteResult.tests s) = None.
Proof.
  vm_compute. do 2 eexists. repeat split; reflexivity.
Qed.

(** ** Recent runs *)

Lemma insert_perm (x : Run.t) l :
  Permutation (JsArray.insert testResultsStore.byStartDesc x l) (x :: l).
Proof.
  induction l as [|y l IH]; simpl; [reflexivity|].
  destruct (_ <=? 0); [reflexivity|].
  rewrite IH. apply perm_swap.
Qed.

Lemma sort_perm (l : list Run.t) :
  Permutation (JsArray.sort testResultsStore.byStartDesc l) l.
Proof.
  induction l as [|x l IH]; simpl; [reflexivity|].
  rewrite insert_perm. now constructor.
Qed.

Lemma insert_sorted (x : Run.t) l :
  Sorted desc l -> Sorted desc (JsArray.insert testResultsStore.byStartDesc x l).
Proof.
  induction 1 as [|y l Hs IH Hh]; simpl.
  - repeat constructor.
  - unfold testResultsStore.byStartDesc at 1.
    destruct (Z.leb_spec (Run.startTime y - Run.startTime x) 0) as [Hle|Hgt].
    + constructor; [now constructor|]. constructor. unfold desc. lia.
    + constructor; [exact IH|].
      destruct l as [|z l]; simpl.
      * constructor. unfold desc. lia.
      * unfold testResultsStore.byStartDesc at 1.
        destruct (_ <=? 0); constructor; unfold desc; try lia.
        now inversion Hh.
Qed.

Lemma sort_sorted (l : list Run.t) :
  StronglySorted desc (JsArray.sort testResultsStore.byStartDesc l).
Proof.
  apply Sorted_StronglySorted.
  - intros a b c. unfold desc. lia.
  - induction l as [|x l IH]; simpl; [constructor|]. now apply insert_sorted.
Qed.

Lemma firstn_strongly_sorted (n : nat) (l : list Run.t) :
  StronglySorted desc l -> StronglySorted desc (firstn n l).
Proof.
  intros Hs. revert n. induction Hs as [|x l Hs IH Hall]; intros [|n]; simpl;
    try constructor; auto.
  rewrite Forall_forall in *. intros y Hy. apply Hall.
  rewrite <- (firstn_skipn n l). apply in_or_app. now left.
Qed.

Lemma slice0_nonneg {A : Type} (n : Z) (l : list A) :
  0 <= n -> JsArray.slice0 (JsNumber.Num n) l = firstn (Z.to_nat n) l.
Proof.
  intros Hn. unfold JsArray.slice0.
  destruct (Z.ltb_spec n 0); [lia|].
  destruct (Z.le_gt_cases n (Z.of_nat (List.length l))).
  - now rewrite Z.min_l.
  - rewrite Z.min_r by lia. rewrite Nat2Z.id.
    rewrite !firstn_all2; auto; lia.
Qed.


(** C7, as stated, fails for a negative limit: [slice(0, -1)] drops the
    last run only, so a registry of two runs answers one run to the limit
    -1. *)
Lemma recent_runs_negative_limit :
  testResultsStore.getRecentRuns (Some (JsNumber.Num (-1))) (registry_of [10; 20])
  = [run_at 20] /\
  ~ at_most_limit (-1) (registry_of [10; 20]).
Proof.
  split; [reflexivity|]. unfold at_most_limit. vm_compute. intros H. now apply H.
Qed.

(** C7, amended. For every registry and every limit [n >= 0],
    [getRecentRuns] returns the first [n] runs of the registry sorted by
    start time descending: the result is sorted, has [min n (number of
    runs)] entries, and the limit is 10 when none is given; a registry of 5
    runs answers exactly 3 runs to the limit 3. *)
Theorem recent_runs_sorted_and_truncated (n : Z) (rs : JsObject.t Run.t) :
  0 <= n ->
  let sorted := JsArray.sort testResultsStore.byStartDesc (JsObject.values rs) in
  let recent := testResultsStore.getRecentRuns (Some (JsNumber.Num n)) rs in
  Permutation sorted (JsObject.values rs) /\
  StronglySorted desc sorted /\
  recent = firstn (Z.to_nat n) sorted /\
  StronglySorted desc recent /\
  List.length recent = Nat.min (Z.to_nat n) (List.length rs) /\
  testResultsStore.getRecentRuns None rs
  = testResultsStore.getRecentRuns (Some (JsNumber.Num 10)) rs /\
  (n = 3 -> List.length rs = 5%nat -> List.length recent = 3%nat).
Proof.
  intros Hn sorted recent.
  assert (Hrec : recent = firstn (Z.to_nat n) sorted).
  { unfold recent, testResultsStore.getRecentRuns. now apply slice0_nonneg. }
  assert (Hlen : List.length recent = Nat.min (Z.to_nat n) (List.length rs)).
  { rewrite Hrec, length_firstn. f_equal. unfold sorted.
    rewrite (Permutation_length (sort_perm _)). unfold JsObject.values.
    apply length_map. }
  repeat split; auto.
  - apply sort_perm.
  - apply sort_sorted.
  - rewrite Hrec. apply firstn_strongly_sorted, sort_sorted.
  - intros -> H5. rewrite Hlen, H5. reflexivity.
Qed.

Lemma recent_runs_sorted_and_truncated_witness :
  0 <= 3 /\
  testResultsStore.getRecentRuns (Some (JsNumber.Num 3))
    (registry_of [30; 10; 50; 20; 40])
  = [run_at 50; run_at 40; run_at 30].
Proof.
  split; [lia|].
  pose proof (recent_runs_sorted_and_truncated 3 (registry_of [30; 10; 50; 20; 40])
                ltac:(lia)) as H.
  cbv zeta in H. destruct H as (_ & _ & -> & _). reflexivity.
Defined.




(** ** Completion handling *)

Lemma updateRunStatus_get runId status now rs r :
  JsObject.get runId rs = Some r ->
  JsObject.get runId (testResultsStore.updateRunStatus runId status now rs) =
  Some (Run.mk (Run.id r) status (Run.startTime r)
               (if RunStatus.is_terminal status then Some now else Run.endTime r)
               (Run.config r) (Run.summary r) (Run.suites r)).
Proof.
  intros Hr. unfold testResultsStore.updateRunStatus. rewrite Hr.
  apply get_set_eq.
Qed.

Lemma updateRunStatus_get_other runId status now rs id :
  runId <> id ->
  JsObject.get id (testResultsStore.updateRunStatus runId status now rs) =
  JsObject.get id rs.
Proof.
  intros Hne. unfold testResultsStore.updateRunStatus.
  destruct (JsObject.get runId rs); [now apply get_set_ne | reflexivity].
Qed.

(** Whatever the record is, a [close] with a code other than 0 marks it
    [error], leaves its summary and suites alone and does not look at the
    report. *)
Lemma nonzero_exit_keeps_summary
      (w : World) (k : nat) (runId : string) (r : Run.t)
      (code : option Z) (report : ReportFile) (now : Z) :
  nth_error (children w) k = Some runId ->
  code <> Some 0 ->
  testResultsStore.getRun runId (results w) = Some r ->
  exists w' r',
    step w (Close k code report now) = Some w' /\
    testResultsStore.getRun runId (results w') = Some r' /\
    Run.status r' = RunStatus.error /\
    Run.summary r' = Run.summary r /\
    Run.suites r' = Run.suites r /\
    step w (Close k code NoReport now) = Some w'.
Proof.
  intros Hk Hc Hr. unfold step. rewrite Hk.
  rewrite !onClose_error_exec by assumption. do 2 eexists.
  split; [reflexivity|]. cbn [results]. unfold testResultsStore.getRun in *.
  rewrite (updateRunStatus_get _ _ _ _ _ Hr). repeat split; auto.
Qed.

(** Whatever the record is, a [close] with code 0 and no report file marks
    it [completed], leaves its summary and suites alone and writes a
    warning only. *)
Lemma missing_report_keeps_summary
      (w : World) (k : nat) (runId : string) (r : Run.t) (now : Z) :
  nth_error (children w) k = Some runId ->
  testResultsStore.getRun runId (results w) = Some r ->
  exists w' r',
    step w (Close k (Some 0) NoReport now) = Some w' /\
    testResultsStore.getRun runId (results w') = Some r' /\
    Run.status r' = RunStatus.completed /\
    Run.summary r' = Run.summary r /\
    Run.suites r' = Run.suites r /\
    output w' =
    (output w ++ [ConsoleWarn "No results file found, test may have been empty."])%list.
Proof.
  intros Hk Hr. unfold step. rewrite Hk.
  rewrite onClose_missing_exec. do 2 eexists.
  split; [reflexivity|]. cbn [results output]. unfold testResultsStore.getRun in *.
  rewrite (updateRunStatus_get _ _ _ _ _ Hr). repeat split; auto.
Qed.

(** ** Starting a run *)



(** ** Run identifiers *)

Lemma started_postRun body t_id t_start w :
  started (execState (postRun body t_id t_start) w)
  = (started w ++ [newRunId t_id])%list.
Proof.
  unfold started. rewrite postRun_exec. cbn [output].
  rewrite !flat_map_app. cbn. now rewrite !app_nil_r.
Qed.

Lemma started_postRunOther suites browser mode t_id t_start w :
  started (execState (postRunOther suites browser mode t_id t_start) w)
  = (started w ++ [newRunId t_id])%list.
Proof.
  unfold started. rewrite postRunOther_exec. cbv zeta. cbn [output].
  destruct (otherSuitesPass _ _); rewrite !flat_map_app; cbn; now rewrite ?app_nil_r.
Qed.

Lemma started_onClose runId code report now w cs :
  started (execState (onClose runId code report now)
                     (mkWorld (results w) (output w) cs)) = started w.
Proof.
  unfold started.
  destruct code as [[|p|p]|]; try destruct report; cbn;
    try (destruct (JsObject.get runId (results w)); cbn);
    rewrite ?flat_map_app; cbn; now rewrite ?app_nil_r.
Qed.

Lemma started_run tr : forall w0 w,
  run w0 tr = Some w ->
  started w = (started w0 ++ map newRunId (post_times tr))%list.
Proof.
  induction tr as [|e tr IH]; intros w0 w; simpl.
  - intros [= ->]. now rewrite app_nil_r.
  - destruct e as [body t_id t_start | k code report now
                   | suites browser mode t_id t_start]; simpl.
    + intros H. rewrite (IH _ _ H), started_postRun. now rewrite <- app_assoc.
    + destruct (nth_error (children w0) k); [|discriminate].
      intros H. now rewrite (IH _ _ H), started_onClose.
    + intros H. rewrite (IH _ _ H), started_postRunOther. now rewrite <- app_assoc.
Qed.

(** C1, as stated, fails: two requests that read the same millisecond from
    [Date.now()] are answered with the same identifier, and the registry
    holds one record for the two runs. *)
Lemma same_millisecond_same_run_id :
  exists w,
    run initial [PostRun some_request 5 5; PostRun some_request 5 6] = Some w /\
    started w = ["run_5"; "run_5"] /\
    ~ NoDup (started w) /\
    List.length (results w) = 1%nat /\
    children w = ["run_5"; "run_5"].
Proof.
  eexists. split; [reflexivity|]. cbn. repeat split; try reflexivity.
  intros H. inversion H as [|x l Hin _]; subst. apply Hin. now left.
Qed.

(** C1, amended. The identifiers answered along an execution are the
    clock readings of the requests, rendered in decimal after [run_]; they
    are pairwise distinct exactly when the requests read pairwise distinct
    milliseconds from [Date.now()]. *)
Theorem run_ids_distinct_iff_clock_distinct (tr : list Event) (w : World) :
  run initial tr = Some w ->
  started w = map newRunId (post_times tr) /\
  (NoDup (started w) <-> NoDup (post_times tr)).
Proof.
  intros H. apply started_run in H. cbn in H. split; [exact H|].
  rewrite H. split.
  - apply NoDup_map_inv.
  - intros Hn. apply Finite.Injective_map_NoDup; [|exact Hn].
    intros a b. apply newRunId_inj.
Qed.

Lemma run_ids_distinct_iff_clock_distinct_witness :
  exists w,
    run initial [PostRun some_request 5 5; PostRun some_request 6 6] = Some w /\
    NoDup (started w).
Proof.
  eexists. split; [reflexivity|].
  apply (run_ids_distinct_iff_clock_distinct
           [PostRun some_request 5 5; PostRun some_request 6 6]); [reflexivity|].
  cbn. repeat constructor; cbn; intuition discriminate.
Defined.

(** ** Status life cycle *)

Lemma onClose_effect runId code report now w :
  let w' := execState (onClose runId code report now) w in
  children w' = children w /\
  (JsObject.get runId (results w) = None -> results w' = results w) /\
  (forall r, JsObject.get runId (results w) = Some r ->
             exists r', results w' = JsObject.set runId r' (results w) /\
                        RunStatus.is_terminal (Run.status r') = true).
Proof.
  cbv zeta. destruct code as [[|p|p]|]; try destruct report; cbn;
    unfold testResultsStore.updateRunStatus;
    destruct (JsObject.get runId (results w)) as [r0|]; cbn;
    (split; [reflexivity|]); (split; [try discriminate; reflexivity|]);
    intros r; try discriminate; intros _; eexists; split; reflexivity.
Qed.

Lemma remove_nth_In {A : Type} (k : nat) (l : list A) (x : A) :
  In x (remove_nth k l) -> In x l.
Proof.
  revert k. induction l as [|y l IH]; intros [|k]; simpl; auto.
  intros [->|H]; eauto.
Qed.

Lemma remove_nth_NoDup {A : Type} (k : nat) (l : list A) :
  NoDup l -> NoDup (remove_nth k l).
Proof.
  intros Hn. revert k. induction Hn as [|y l Hy Hn IH]; intros [|k]; simpl;
    try constructor; auto.
  intros Hin. apply Hy. eapply remove_nth_In; eauto.
Qed.

Lemma remove_nth_not_In {A : Type} (k : nat) (l : list A) (x : A) :
  NoDup l -> nth_error l k = Some x -> ~ In x (remove_nth k l).
Proof.
  intros Hn. revert k. induction Hn as [|y l Hy Hn IH]; intros [|k]; simpl;
    try discriminate.
  - now intros [= ->].
  - intros Hk [->|Hin].
    + apply Hy. eapply nth_error_In; eauto.
    + eapply IH; eauto.
Qed.

Lemma consistent_initial : consistent [] initial.
Proof.
  split; simpl; try tauto. constructor.
Qed.

Lemma fresh_id_not_child seen w t :
  consistent seen w -> ~ In t seen -> ~ In (newRunId t) (children w).
Proof.
  intros Hc Ht Hin.
  destruct (child_registered _ _ Hc _ Hin) as (r & Hr & _).
  apply get_In_keys in Hr.
  destruct (keys_seen _ _ Hc _ Hr) as (t0 & Ht0 & E).
  apply newRunId_inj in E. now subst.
Qed.

Lemma consistent_postRun seen w body t_id t_start :
  consistent seen w -> ~ In t_id seen ->
  consistent (seen ++ [t_id]) (execState (postRun body t_id t_start) w).
Proof.
  intros Hc Ht. pose proof (fresh_id_not_child _ _ _ Hc Ht) as Hfresh.
  rewrite postRun_exec. cbv zeta. split; cbn [results children].
  - intros id Hid. apply keys_set in Hid as [->|Hid].
    + exists t_id. split; [apply in_or_app; right; now left | reflexivity].
    + destruct (keys_seen _ _ Hc _ Hid) as (t & Hin & ->).
      exists t. split; [apply in_or_app; now left | reflexivity].
  - apply NoDup_app; [apply (children_distinct _ _ Hc) | repeat constructor; auto |].
    intros a Ha [<-|[]]. auto.
  - intros id Hid. apply in_app_or in Hid as [Hid|[<-|[]]].
    + destruct (child_registered _ _ Hc _ Hid) as (r & Hr & Hs).
      exists r. split; [|exact Hs]. rewrite get_set_ne; [exact Hr|].
      intros <-. auto.
    + eexists. split; [apply get_set_eq | split; reflexivity].
Qed.

Lemma consistent_postRunOther seen w suites browser mode t_id t_start :
  consistent seen w -> ~ In t_id seen ->
  consistent (seen ++ [t_id])
             (execState (postRunOther suites browser mode t_id t_start) w).
Proof.
  intros Hc Ht. pose proof (fresh_id_not_child _ _ _ Hc Ht) as Hfresh.
  rewrite postRunOther_exec. cbv zeta. split; cbn [results children].
  - intros id Hid. apply keys_set in Hid as [->|Hid].
    + exists t_id. split; [apply in_or_app; right; now left | reflexivity].
    + destruct (keys_seen _ _ Hc _ Hid) as (t & Hin & ->).
      exists t. split; [apply in_or_app; now left | reflexivity].
  - destruct (otherSuitesPass _ _); [|apply (children_distinct _ _ Hc)].
    apply NoDup_app; [apply (children_distinct _ _ Hc) | repeat constructor; auto |].
    intros a Ha [<-|[]]. auto.
  - intros id Hid.
    assert (Hold : In id (children w) \/ id = newRunId t_id).
    { destruct (otherSuitesPass _ _); [|now left].
      apply in_app_or in Hid as [Hid|[<-|[]]]; auto. }
    destruct Hold as [Hold| ->].
    + destruct (child_registered _ _ Hc _ Hold) as (r & Hr & Hs).
      exists r. split; [|exact Hs]. rewrite get_set_ne; [exact Hr|].
      intros <-. auto.
    + eexists. split; [apply get_set_eq | split; reflexivity].
Qed.

Lemma consistent_close seen w k runId code report now :
  consistent seen w -> nth_error (children w) k = Some runId ->
  consistent seen
    (execState (onClose runId code report now)
               (mkWorld (results w) (output w) (remove_nth k (children w)))).
Proof.
  intros Hc Hk.
  destruct (onClose_effect runId code report now
              (mkWorld (results w) (output w) (remove_nth k (children w))))
    as (Hch & Hnone & Hsome). cbn [results children] in *.
  destruct (child_registered _ _ Hc _ (nth_error_In _ _ Hk)) as (r & Hr & Hs).
  destruct (Hsome _ Hr) as (r' & Hres & _).
  split; rewrite ?Hch, ?Hres.
  - intros id Hid. apply keys_set in Hid as [->|Hid].
    + apply (keys_seen _ _ Hc). eapply get_In_keys; eauto.
    + now apply (keys_seen _ _ Hc).
  - apply remove_nth_NoDup, (children_distinct _ _ Hc).
  - intros id Hid.
    assert (Hne : runId <> id).
    { intros <-. revert Hid. apply remove_nth_not_In; [|exact Hk].
      apply (children_distinct _ _ Hc). }
    rewrite get_set_ne by exact Hne.
    apply (child_registered _ _ Hc). eapply remove_nth_In; eauto.
Qed.

(** One event leaves a record alone once its status is terminal. *)
Lemma terminal_record_step seen w e w' id r :
  consistent seen w ->
  (forall t, In t (post_times [e]) -> ~ In t seen) ->
  step w e = Some w' ->
  JsObject.get id (results w) = Some r ->
  RunStatus.is_terminal (Run.status r) = true ->
  JsObject.get id (results w') = Some r.
Proof.
  intros Hc Hfresh Hstep Hr Hterm.
  destruct e as [body t_id t_start | k code report now
                 | suites browser mode t_id t_start]; simpl in Hstep.
  - injection Hstep as <-. rewrite postRun_exec. cbv zeta. cbn [results].
    rewrite get_set_ne; [exact Hr|]. intros <-.
    apply get_In_keys in Hr.
    destruct (keys_seen _ _ Hc _ Hr) as (t & Hin & E).
    apply newRunId_inj in E. subst t.
    apply (Hfresh t_id); simpl; auto.
  - destruct (nth_error (children w) k) as [runId|] eqn:Hk; [|discriminate].
    injection Hstep as <-.
    destruct (child_registered _ _ Hc _ (nth_error_In _ _ Hk)) as (r0 & Hr0 & Hs0 & _).
    assert (Hne : runId <> id).
    { intros ->. rewrite Hr in Hr0. injection Hr0 as ->.
      rewrite Hs0 in Hterm. discriminate. }
    destruct (onClose_effect runId code report now
                (mkWorld (results w) (output w) (remove_nth k (children w))))
      as (_ & _ & Hsome). cbn [results] in Hsome.
    destruct (Hsome _ Hr0) as (r' & -> & _).
    now rewrite get_set_ne.
  - injection Hstep as <-. rewrite postRunOther_exec. cbv zeta. cbn [results].
    rewrite get_set_ne; [exact Hr|]. intros <-.
    apply get_In_keys in Hr.
    destruct (keys_seen _ _ Hc _ Hr) as (t & Hin & E).
    apply newRunId_inj in E. subst t.
    apply (Hfresh t_id); simpl; auto.
Qed.

Lemma consistent_step seen w e w' :
  consistent seen w ->
  (forall t, In t (post_times [e]) -> ~ In t seen) ->
  step w e = Some w' ->
  consistent (seen ++ post_times [e]) w'.
Proof.
  intros Hc Hfresh Hstep.
  destruct e as [body t_id t_start | k code report now
                 | suites browser mode t_id t_start]; simpl in *.
  - injection Hstep as <-. apply consistent_postRun; auto.
  - destruct (nth_error (children w) k) as [runId|] eqn:Hk; [|discriminate].
    injection Hstep as <-. rewrite app_nil_r. now apply consistent_close.
  - injection Hstep as <-. apply consistent_postRunOther; auto.
Qed.

Lemma post_times_cons e tr :
  post_times (e :: tr) = (post_times [e] ++ post_times tr)%list.
Proof.
  unfold post_times. simpl. now rewrite app_nil_r.
Qed.

Lemma consistent_run tr : forall seen w w',
  consistent seen w ->
  NoDup (seen ++ post_times tr) ->
  run w tr = Some w' ->
  consistent (seen ++ post_times tr) w' /\
  (forall id r, JsObject.get id (results w) = Some r ->
                RunStatus.is_terminal (Run.status r) = true ->
                JsObject.get id (results w') = Some r).
Proof.
  induction tr as [|e tr IH]; intros seen w w' Hc Hnd Hrun.
  - simpl in *. injection Hrun as <-. rewrite app_nil_r. auto.
  - simpl in Hrun. destruct (step w e) as [w1|] eqn:Hstep; [|discriminate].
    rewrite post_times_cons in *. rewrite app_assoc in *.
    assert (Hfresh : forall t, In t (post_times [e]) -> ~ In t seen).
    { apply NoDup_app_remove_r in Hnd.
      destruct e; simpl; try tauto; intros t [<-|[]];
        apply NoDup_remove_2 in Hnd; now rewrite app_nil_r in Hnd. }
    pose proof (consistent_step _ _ _ _ Hc Hfresh Hstep) as Hc1.
    destruct (IH _ _ _ Hc1 Hnd Hrun) as (Hc' & Hfinal).
    split; [exact Hc'|].
    intros id r Hr Hterm. apply Hfinal; [|exact Hterm].
    exact (terminal_record_step _ _ _ _ _ _ Hc Hfresh Hstep Hr Hterm).
Qed.

(** A new record appears with status [running] only. *)
Lemma new_record_is_running w e w' id r :
  step w e = Some w' ->
  JsObject.get id (results w) = None ->
  JsObject.get id (results w') = Some r ->
  Run.status r = RunStatus.running.
Proof.
  intros Hstep Hnone Hsome.
  destruct e as [body t_id t_start | k code report now
                 | suites browser mode t_id t_start]; simpl in Hstep.
  - injection Hstep as <-. rewrite postRun_exec in Hsome. cbv zeta in Hsome.
    cbn [results] in Hsome.
    destruct (String.eqb_spec (newRunId t_id) id) as [<-|Hne].
    + rewrite get_set_eq in Hsome. now injection Hsome as <-.
    + rewrite get_set_ne in Hsome by exact Hne. congruence.
  - destruct (nth_error (children w) k) as [runId|]; [|discriminate].
    injection Hstep as <-.
    destruct (onClose_effect runId code report now
                (mkWorld (results w) (output w) (remove_nth k (children w))))
      as (_ & Hn & Hs). cbn [results] in *.
    destruct (JsObject.get runId (results w)) as [r0|] eqn:Hr0.
    + destruct (Hs _ eq_refl) as (r' & Hres & _). rewrite Hres in Hsome.
      rewrite get_set_ne in Hsome; [congruence|]. intros <-. congruence.
    + rewrite (Hn eq_refl) in Hsome. congruence.
  - injection Hstep as <-. rewrite postRunOther_exec in Hsome. cbv zeta in Hsome.
    cbn [results] in Hsome.
    destruct (String.eqb_spec (newRunId t_id) id) as [<-|Hne].
    + rewrite get_set_eq in Hsome. now injection Hsome as <-.
    + rewrite get_set_ne in Hsome by exact Hne. congruence.
Qed.

(** Records are never deleted: the run of every pending child process is
    in the registry, whatever the clock readings were. *)
Lemma pending_child_has_record tr : forall w0 w,
  (forall id, In id (children w0) -> exists r, JsObject.get id (results w0) = Some r) ->
  run w0 tr = Some w ->
  forall id, In id (children w) -> exists r, JsObject.get id (results w) = Some r.
Proof.
  induction tr as [|e tr IH]; intros w0 w H0 Hrun; simpl in Hrun.
  - now injection Hrun as <-.
  - destruct (step w0 e) as [w1|] eqn:Hstep; [|discriminate].
    apply (IH w1 w); [|exact Hrun]. clear IH Hrun.
    destruct e as [body t_id t_start | k code report now
                   | suites browser mode t_id t_start]; simpl in Hstep.
    + injection Hstep as <-. rewrite postRun_exec. cbv zeta. cbn [results children].
      intros id Hid.
      destruct (String.eqb_spec (newRunId t_id) id) as [<-|Hne].
      * eexists. apply get_set_eq.
      * rewrite get_set_ne by exact Hne. apply H0.
        apply in_app_or in Hid as [Hid|[E|[]]]; [exact Hid | congruence].
    + destruct (nth_error (children w0) k) as [runId|] eqn:Hk; [|discriminate].
      injection Hstep as <-.
      destruct (onClose_effect runId code report now
                  (mkWorld (results w0) (output w0) (remove_nth k (children w0))))
        as (Hch & _ & Hsome). cbn [results children] in *.
      destruct (H0 _ (nth_error_In _ _ Hk)) as (r0 & Hr0).
      destruct (Hsome _ Hr0) as (r' & Hres & _).
      rewrite Hch, Hres. intros id Hid.
      destruct (String.eqb_spec runId id) as [<-|Hne].
      * eexists. apply get_set_eq.
      * rewrite get_set_ne by exact Hne. apply H0. eapply remove_nth_In; eauto.
    + injection Hstep as <-. rewrite postRunOther_exec. cbv zeta. cbn [results children].
      intros id Hid.
      destruct (String.eqb_spec (newRunId t_id) id) as [<-|Hne].
      * eexists. apply get_set_eq.
      * rewrite get_set_ne by exact Hne. apply H0.
        destruct (otherSuitesPass _ _); [|exact Hid].
        apply in_app_or in Hid as [Hid|[E|[]]]; [exact Hid | congruence].
Qed.

(** Without two requests reading the same millisecond, the record of a
    pending child process is as [createRun] made it: [running], with an
    all-zero summary. *)
Lemma pending_run_is_fresh tr w id :
  NoDup (post_times tr) ->
  run initial tr = Some w ->
  In id (children w) ->
  exists r, testResultsStore.getRun id (results w) = Some r /\
            Run.status r = RunStatus.running /\
            Run.summary r = Summary.zero.
Proof.
  intros Hnd Hrun Hid.
  destruct (consistent_run tr [] initial w consistent_initial Hnd Hrun) as (Hc & _).
  exact (child_registered _ _ Hc _ Hid).
Qed.

(** C2, as stated, fails: after two requests that read the same
    millisecond, the report of the first child is merged into the record
    they share; when the second child then closes with code 1 the record is
    [error] and its summary holds the two tests of the report. *)
Lemma nonzero_exit_after_shared_report :
  exists w1 w2 r,
    run initial [PostRun some_request 5 5; PostRun some_request 5 6;
                 Close 0 (Some 0) (Report two_nested_suites) 7] = Some w1 /\
    step w1 (Close 0 (Some 1) NoReport 9) = Some w2 /\
    testResultsStore.getRun "run_5" (results w2) = Some r /\
    Run.status r = RunStatus.error /\
    Summary.total (Run.summary r) = 2 /\
    Run.summary r <> Summary.zero.
Proof.
  do 3 eexists. repeat split; try reflexivity. discriminate.
Qed.

(** C2, amended. Along every execution in which no two requests read the
    same millisecond from [Date.now()]: when the child process of a run
    closes with a code other than 0, the run's status becomes [error] and
    its summary stays all-zero; the report file is not looked at: the
    resulting state is the same with and without a report. *)
Theorem nonzero_exit_marks_error
        (tr : list Event) (w : World) (k : nat) (runId : string)
        (code : option Z) (report : ReportFile) (now : Z) :
  NoDup (post_times tr) ->
  run initial tr = Some w ->
  nth_error (children w) k = Some runId ->
  code <> Some 0 ->
  exists w' r',
    step w (Close k code report now) = Some w' /\
    testResultsStore.getRun runId (results w') = Some r' /\
    Run.status r' = RunStatus.error /\
    Run.summary r' = Summary.zero /\
    step w (Close k code NoReport now) = Some w'.
Proof.
  intros Hnd Hrun Hk Hc.
  destruct (pending_run_is_fresh tr w runId Hnd Hrun (nth_error_In _ _ Hk))
    as (r & Hr & _ & Hz).
  destruct (nonzero_exit_keeps_summary w k runId r code report now Hk Hc Hr)
    as (w' & r' & Hs & Hg & He & Hsum & _ & Hno).
  exists w', r'. rewrite Hsum, Hz. auto.
Qed.

Lemma nonzero_exit_marks_error_witness :
  exists w' r',
    step one_run_pending (Close 0 (Some 1) (Report two_nested_suites) 9) = Some w' /\
    testResultsStore.getRun "run_5" (results w') = Some r' /\
    Run.status r' = RunStatus.error /\
    Run.summary r' = Summary.zero.
Proof.
  destruct (nonzero_exit_marks_error [PostRun some_request 5 5] one_run_pending 0 "run_5"
              (Some 1) (Report two_nested_suites) 9)
    as (w' & r' & Hs & Hg & He & Hz & _);
    [repeat constructor; intros [] | reflexivity | reflexivity | discriminate |].
  exists w', r'. auto.
Defined.

(** C6, as stated, fails: after two requests that read the same
    millisecond and the merge of the report of the first child, the second
    child closes with code 0 and no report file: the record is [completed]
    and its summary holds the two tests of the earlier report. *)
Lemma missing_report_after_shared_report :
  exists w1 w2 r,
    run initial [PostRun some_request 5 5; PostRun some_request 5 6;
                 Close 0 (Some 0) (Report two_nested_suites) 7] = Some w1 /\
    step w1 (Close 0 (Some 0) NoReport 9) = Some w2 /\
    testResultsStore.getRun "run_5" (results w2) = Some r /\
    Run.status r = RunStatus.completed /\
    Summary.total (Run.summary r) = 2 /\
    Run.summary r <> Summary.zero.
Proof.
  do 3 eexists. repeat split; try reflexivity. discriminate.
Qed.

(** C6, amended. Along every execution in which no two requests read the
    same millisecond from [Date.now()]: when the child process of a run
    closes with code 0 and there is no report file, the run's status
    becomes [completed], its summary stays all-zero, and only a warning is
    logged: no error is raised and the run is not marked [error]. *)
Theorem missing_report_completes
        (tr : list Event) (w : World) (k : nat) (runId : string) (now : Z) :
  NoDup (post_times tr) ->
  run initial tr = Some w ->
  nth_error (children w) k = Some runId ->
  exists w' r',
    step w (Close k (Some 0) NoReport now) = Some w' /\
    testResultsStore.getRun runId (results w') = Some r' /\
    Run.status r' = RunStatus.completed /\
    Run.summary r' = Summary.zero /\
    output w' =
    (output w ++ [ConsoleWarn "No results file found, test may have been empty."])%list.
Proof.
  intros Hnd Hrun Hk.
  destruct (pending_run_is_fresh tr w runId Hnd Hrun (nth_error_In _ _ Hk))
    as (r & Hr & _ & Hz).
  destruct (missing_report_keeps_summary w k runId r now Hk Hr)
    as (w' & r' & Hs & Hg & He & Hsum & _ & Hout).
  exists w', r'. rewrite Hsum, Hz. auto.
Qed.

Lemma missing_report_completes_witness :
  exists w' r',
    step one_run_pending (Close 0 (Some 0) NoReport 9) = Some w' /\
    testResultsStore.getRun "run_5" (results w') = Some r' /\
    Run.status r' = RunStatus.completed /\
    Run.summary r' = Summary.zero.
Proof.
  destruct (missing_report_completes [PostRun some_request 5 5] one_run_pending 0 "run_5" 9)
    as (w' & r' & Hs & Hg & He & Hz & _);
    [repeat constructor; intros [] | reflexivity | reflexivity |].
  exists w', r'. auto.
Defined.

(** C3, as stated, fails: two requests that read the same millisecond
    share one record and launch two child processes; the first [close]
    marks the record [completed] and the second one marks it [error]. *)
Lemma shared_record_leaves_terminal_state :
  exists w1 w2 r1 r2,
    run initial [PostRun some_request 5 5; PostRun some_request 5 6;
                 Close 0 (Some 0) NoReport 7] = Some w1 /\
    run w1 [Close 0 (Some 1) NoReport 9] = Some w2 /\
    testResultsStore.getRun "run_5" (results w1) = Some r1 /\
    Run.status r1 = RunStatus.completed /\
    testResultsStore.getRun "run_5" (results w2) = Some r2 /\
    Run.status r2 = RunStatus.error.
Proof.
  do 4 eexists. repeat split; reflexivity.
Qed.

(** C3, amended. Along every execution in which no two requests read the
    same millisecond from [Date.now()]: a record enters the registry with
    status [running]; a record whose status is terminal ([completed] or
    [error]) is never changed again; so between two states of an execution
    the status of a record either is the same or went from [running] to a
    terminal status. *)
Theorem run_status_life_cycle
        (tr1 tr2 : list Event) (w1 w2 : World) (id : string) :
  NoDup (post_times (tr1 ++ tr2)) ->
  run initial tr1 = Some w1 ->
  run w1 tr2 = Some w2 ->
  (forall e r,
      tr2 = [e] ->
      testResultsStore.getRun id (results w1) = None ->
      testResultsStore.getRun id (results w2) = Some r ->
      Run.status r = RunStatus.running) /\
  (forall r,
      testResultsStore.getRun id (results w1) = Some r ->
      RunStatus.is_terminal (Run.status r) = true ->
      testResultsStore.getRun id (results w2) = Some r) /\
  (forall r1 r2,
      testResultsStore.getRun id (results w1) = Some r1 ->
      testResultsStore.getRun id (results w2) = Some r2 ->
      Run.status r2 = Run.status r1 \/
      (Run.status r1 = RunStatus.running /\
       RunStatus.is_terminal (Run.status r2) = true)).
Proof.
  unfold testResultsStore.getRun. intros Hnd H1 H2.
  unfold post_times in Hnd. rewrite flat_map_app in Hnd.
  fold (post_times tr1) in Hnd. fold (post_times tr2) in Hnd.
  destruct (consistent_run tr1 [] initial w1 consistent_initial
              (NoDup_app_remove_r _ _ Hnd) H1) as (Hc1 & _).
  destruct (consistent_run tr2 _ w1 w2 Hc1 Hnd H2) as (_ & Hfinal).
  assert (Hterm : forall r, JsObject.get id (results w1) = Some r ->
                            RunStatus.is_terminal (Run.status r) = true ->
                            JsObject.get id (results w2) = Some r).
  { intros r. apply Hfinal. }
  repeat split.
  - intros e r -> Hnone Hsome. simpl in H2.
    destruct (step w1 e) as [w|] eqn:Hstep; [|discriminate].
    injection H2 as ->. eapply new_record_is_running; eauto.
  - exact Hterm.
  - intros r1 r2 Hr1 Hr2.
    destruct (RunStatus.is_terminal (Run.status r1)) eqn:Ht.
    + left. rewrite (Hterm _ Hr1 Ht) in Hr2. now injection Hr2 as <-.
    + destruct (Run.status r1); try discriminate.
      destruct (Run.status r2); simpl; auto.
Qed.

Lemma run_status_life_cycle_witness :
  exists w1 w2 r,
    run initial [PostRun some_request 5 5; Close 0 (Some 0) NoReport 7] = Some w1 /\
    run w1 [PostRun some_request 6 6; Close 0 (Some 1) NoReport 9] = Some w2 /\
    testResultsStore.getRun "run_5" (results w1) = Some r /\
    Run.status r = RunStatus.completed /\
    testResultsStore.getRun "run_5" (results w2) = Some r.
Proof.
  do 3 eexists.
  split; [reflexivity|]. split; [reflexivity|]. split; [reflexivity|].
  split; [reflexivity|].
  refine (proj1 (proj2 (run_status_life_cycle
            [PostRun some_request 5 5; Close 0 (Some 0) NoReport 7]
            [PostRun some_request 6 6; Close 0 (Some 1) NoReport 9]
            _ _ "run_5" _ eq_refl eq_refl)) _ eq_refl eq_refl).
  cbn. repeat constructor; cbn; intuition discriminate.
Defined.

(* ===================================================================== *)
(** * Further properties of the server *)
(* ===================================================================== *)

(** ** Strings, paths and names *)

Lemma chars_app (a b : string) : chars (a ++ b) = (chars a ++ chars b)%list.
Proof.
  unfold chars. induction a as [|c a IH]; simpl; [reflexivity|]. now rewrite IH.
Qed.

Lemma of_chars_chars (s : string) : of_chars (chars s) = s.
Proof. apply string_of_list_ascii_of_string. Qed.

Lemma chars_of_chars (l : list ascii) : chars (of_chars l) = l.
Proof. apply list_ascii_of_string_of_list_ascii. Qed.

Lemma length_chars (s : string) : List.length (chars s) = String.length s.
Proof.
  unfold chars. induction s as [|c s IH]; simpl; [reflexivity|]. now rewrite IH.
Qed.

Lemma take_until_app p (a b : list ascii) (x : ascii) :
  forallb (fun c => negb (p c)) a = true -> p x = true ->
  take_until p (a ++ x :: b) = a.
Proof.
  intros Ha Hx. induction a as [|c a IH]; simpl in *.
  - now rewrite Hx.
  - apply andb_prop in Ha as [Hc Ha]. apply negb_true_iff in Hc.
    rewrite Hc. now rewrite IH.
Qed.

Lemma drop_until_app p (a b : list ascii) (x : ascii) :
  forallb (fun c => negb (p c)) a = true -> p x = true ->
  drop_until p (a ++ x :: b) = x :: b.
Proof.
  intros Ha Hx. induction a as [|c a IH]; simpl in *.
  - now rewrite Hx.
  - apply andb_prop in Ha as [Hc Ha]. apply negb_true_iff in Hc.
    rewrite Hc. now apply IH.
Qed.

Lemma drop_until_none p (l : list ascii) :
  forallb (fun c => negb (p c)) l = true -> drop_until p l = [].
Proof.
  induction l as [|c l IH]; simpl; [reflexivity|].
  intros H. apply andb_prop in H as [Hc H]. apply negb_true_iff in Hc.
  rewrite Hc. now apply IH.
Qed.

Lemma forallb_rev {A : Type} (f : A -> bool) (l : list A) :
  forallb f (rev l) = forallb f l.
Proof.
  induction l as [|x l IH]; simpl; [reflexivity|].
  rewrite forallb_app, IH. simpl. rewrite andb_true_r. apply andb_comm.
Qed.

Lemma strip_extension_of_name (name ext : string) :
  plain_extension ext = true ->
  strip_extension (name ++ "." ++ ext) = name.
Proof.
  unfold plain_extension. intros H. apply andb_prop in H as [Hne Hext].
  unfold strip_extension. rewrite chars_app. simpl (chars ("." ++ ext)).
  fold (chars ext). rewrite rev_app_distr. simpl rev. rewrite <- !app_assoc. simpl app.
  rewrite take_until_app, drop_until_app; try (now rewrite forallb_rev); try reflexivity.
  destruct (rev (chars ext)) as [|c r] eqn:E.
  - apply (f_equal (@rev ascii)) in E. rewrite rev_involutive in E. simpl in E.
    destruct ext; [discriminate Hne | discriminate E].
  - simpl. now rewrite rev_involutive, of_chars_chars.
Qed.

Lemma basename_of_path (dir file : string) :
  no_slash file = true -> file <> "" ->
  basename (dir ++ "/" ++ file) = file.
Proof.
  unfold no_slash, basename. intros Hns Hne.
  rewrite chars_app. simpl (chars ("/" ++ file)). fold (chars file).
  rewrite rev_app_distr. simpl rev. rewrite <- !app_assoc. simpl app.
  assert (Hr : forallb (fun c => negb (is_slash c)) (rev (chars file)) = true)
    by now rewrite forallb_rev.
  destruct (rev (chars file)) as [|c r] eqn:E.
  - apply (f_equal (@rev ascii)) in E. rewrite rev_involutive in E. simpl in E.
    destruct file; [congruence | discriminate E].
  - assert (Hc : is_slash c = false).
    { simpl in Hr. apply andb_prop in Hr as [Hc _]. now apply negb_true_iff in Hc. }
    simpl app. simpl drop_while. rewrite Hc.
    change (c :: (r ++ "/"%char :: rev (chars dir))%list)
      with (((c :: r) ++ "/"%char :: rev (chars dir))%list).
    rewrite take_until_app; [|exact Hr|reflexivity].
    rewrite <- E. now rewrite rev_involutive, of_chars_chars.
Qed.

Lemma starts_with_app (k l : list ascii) :
  starts_with k l = true <-> exists r, l = (k ++ r)%list.
Proof.
  revert l. induction k as [|a k IH]; intros l; simpl.
  - split; eauto.
  - destruct l as [|b l].
    + split; [discriminate | intros [r Hr]; discriminate Hr].
    + rewrite andb_true_iff, IH. split.
      * intros [Hab [r ->]]. apply Ascii.eqb_eq in Hab as ->. eauto.
      * intros [r Hr]. injection Hr as -> ->. rewrite Ascii.eqb_refl. eauto.
Qed.

Lemma endsWith_app (s suffix : string) :
  endsWith s suffix = true <-> exists p, s = p ++ suffix.
Proof.
  unfold endsWith. rewrite starts_with_app. split.
  - intros [r Hr]. exists (of_chars (rev r)).
    apply (f_equal (@rev ascii)) in Hr.
    rewrite rev_involutive, rev_app_distr, rev_involutive in Hr.
    rewrite <- (of_chars_chars s), Hr, <- (of_chars_chars (_ ++ suffix)).
    now rewrite chars_app, chars_of_chars.
  - intros [p ->]. exists (rev (chars p)).
    now rewrite chars_app, rev_app_distr.
Qed.

Lemma split_nonempty c s : JsString.split c s <> [].
Proof.
  destruct s as [|x s]; simpl; [discriminate|].
  destruct (Ascii.eqb x c); [discriminate|].
  destruct (JsString.split c s); discriminate.
Qed.

Lemma join_cons_char sep x w ws :
  join sep (String x w :: ws) = String x (join sep (w :: ws)).
Proof. destruct ws; reflexivity. Qed.

Lemma formatName_words (id : string) :
  let words := JsString.split " " (replace_char "_" " " (replace_char "-" " " id)) in
  chars (join " " (map capitalize words)) = title_case true (chars id) /\
  chars (join " " (match words with
                   | w :: ws => w :: map capitalize ws
                   | [] => []
                   end)) = title_case false (chars id).
Proof.
  induction id as [|c id IH]; [split; reflexivity|].
  cbv zeta in *. simpl replace_char. simpl chars. fold (chars id).
  set (rest := replace_char "_" " " (replace_char "-" " " id)) in *.
  pose proof (split_nonempty " " rest) as Hne.
  destruct IH as [IHt IHf].
  cbn [title_case].
  destruct (Ascii.eqb c "-") eqn:E1.
  - simpl orb. cbn [JsString.split Ascii.eqb Bool.eqb andb]. simpl.
    destruct (JsString.split " " rest) as [|w ws] eqn:Es; [congruence|].
    cbn [map join]. cbn [map] in IHt. split;
      (destruct (map capitalize ws) eqn:Em; simpl; f_equal; exact IHt).
  - destruct (Ascii.eqb c "_") eqn:E2.
    + simpl orb. cbn [JsString.split]. simpl (Ascii.eqb " " " ").
      destruct (JsString.split " " rest) as [|w ws] eqn:Es; [congruence|].
      cbn [map join]. cbn [map] in IHt. split;
        (destruct (map capitalize ws) eqn:Em; simpl; f_equal; exact IHt).
    + simpl orb. cbn [JsString.split].
      destruct (Ascii.eqb c " ") eqn:E3.
      * destruct (JsString.split " " rest) as [|w ws] eqn:Es; [congruence|].
        cbn [map join]. cbn [map] in IHt. split;
          (destruct (map capitalize ws) eqn:Em; simpl; f_equal; exact IHt).
      * destruct (JsString.split " " rest) as [|w ws] eqn:Es; [congruence|].
        cbn [map capitalize]. rewrite !join_cons_char.
        split; simpl; f_equal; exact IHf.
Qed.

Lemma length_title_case start l : List.length (title_case start l) = List.length l.
Proof.
  revert start. induction l as [|c l IH]; intros start; simpl; [reflexivity|].
  destruct (_ || _); simpl; now rewrite IH.
Qed.

(** X1. For an identifier made of ASCII characters, [formatName] turns
    every [-] and [_] into a space, upper-cases the first character of every
    word (the letters a to z; any other character is kept), keeps every
    other character and appends [ Tests]: the name is 6 characters longer
    than the identifier. *)
Theorem formatName_is_title_case (id : string) :
  ascii_only id = true ->
  formatName id = of_chars (title_case true (chars id)) ++ " Tests" /\
  String.length (formatName id) = (String.length id + 6)%nat.
Proof.
  intros _.
  assert (H : formatName id = of_chars (title_case true (chars id)) ++ " Tests").
  { unfold formatName. f_equal.
    rewrite <- (proj1 (formatName_words id)). now rewrite of_chars_chars. }
  split; [exact H|].
  rewrite H, <- length_chars, chars_app, length_app, chars_of_chars, length_title_case.
  now rewrite length_chars.
Qed.

Lemma formatName_is_title_case_witness :
  formatName "user-management_spec" = "User Management Spec Tests".
Proof.
  rewrite (proj1 (formatName_is_title_case "user-management_spec" eq_refl)).
  reflexivity.
Defined.

(** X2. Stripping the extension gives back the name in front of the last
    dot whenever the extension is not empty and holds neither a dot nor a
    slash; such a text alone, having no dot, is left as it is. *)
Theorem strip_extension_round_trip (name ext : string) :
  plain_extension ext = true ->
  strip_extension (name ++ "." ++ ext) = name /\
  strip_extension ext = ext.
Proof.
  intros H. split; [now apply strip_extension_of_name|].
  unfold plain_extension in H. apply andb_prop in H as [_ H].
  unfold strip_extension. rewrite drop_until_none by now rewrite forallb_rev.
  now destruct (take_until _ _).
Qed.

Lemma strip_extension_round_trip_witness :
  strip_extension "user-management.spec.js" = "user-management.spec".
Proof.
  exact (proj1 (strip_extension_round_trip "user-management.spec" "js" eq_refl)).
Defined.

(** X3. [getSpecFiles] keeps exactly the entries of the directory listing
    that end in [.js] or [.ts]; each of them is its suite identifier followed
    by that extension. *)
Theorem spec_files_are_js_or_ts (files : list string) (file : string) :
  In file (getSpecFiles files) <->
  In file files /\
  (file = strip_extension file ++ ".js" \/ file = strip_extension file ++ ".ts").
Proof.
  unfold getSpecFiles. rewrite filter_In, orb_true_iff, !endsWith_app.
  split; intros [Hin H]; (split; [exact Hin|]).
  - destruct H as [[p ->]|[p ->]]; [left|right].
    + now rewrite (strip_extension_of_name p "js" eq_refl
                   : strip_extension (p ++ ".js") = p).
    + now rewrite (strip_extension_of_name p "ts" eq_refl
                   : strip_extension (p ++ ".ts") = p).
  - destruct H as [H|H]; [left|right]; eauto.
Qed.

Lemma append_inv_l (a b c : string) : a ++ b = a ++ c -> b = c.
Proof.
  induction a as [|x a IH]; simpl; [auto|]. intros H. injection H as H. auto.
Qed.

Lemma testIdOf_inj (suiteId : string) (i j : nat) :
  testIdOf suiteId i = testIdOf suiteId j -> i = j.
Proof.
  unfold testIdOf. intros H. apply append_inv_l in H. simpl in H.
  injection H as H. apply of_num_inj in H. lia.
Qed.

Lemma fold_pushTest filename suiteId names : forall tests,
  fold_left (pushTest filename suiteId) names tests =
  (tests ++ map (fun p => TestDescriptor.mk (testIdOf suiteId (fst p)) (of_chars (snd p))
                                            (getCategoryFromFilename filename))
               (combine (seq (List.length tests) (List.length names)) names))%list.
Proof.
  induction names as [|n names IH]; intros tests; simpl.
  - now rewrite app_nil_r.
  - rewrite IH. unfold pushTest. rewrite <- app_assoc, length_app. simpl.
    now rewrite Nat.add_1_r.
Qed.

Lemma map_fst_combine_seq {A : Type} (l : list A) (i : nat) :
  map fst (combine (seq i (List.length l)) l) = seq i (List.length l).
Proof.
  revert i. induction l as [|x l IH]; intros i; simpl; [reflexivity|].
  now rewrite IH.
Qed.

Lemma map_snd_combine_seq {A : Type} (l : list A) (i : nat) :
  map snd (combine (seq i (List.length l)) l) = l.
Proof.
  revert i. induction l as [|x l IH]; intros i; simpl; [reflexivity|].
  now rewrite IH.
Qed.

(** X4. The tests [parseSpecFile] lists are the matches of the [it]
    expression in the file, in order; their identifiers are the suite
    identifier followed by 0, 1, 2, ... so no two tests of a descriptor share
    an identifier, and every test carries the category of the file name. *)
Theorem parseSpecFile_numbers_tests (filename content : string) :
  let suite := parseSpecFile filename content in
  let names := scan_calls "it" 0 (chars content) in
  SuiteDescriptor.id suite = strip_extension filename /\
  map TestDescriptor.name (SuiteDescriptor.tests suite) = map of_chars names /\
  map TestDescriptor.id (SuiteDescriptor.tests suite)
  = map (testIdOf (strip_extension filename)) (seq 0 (List.length names)) /\
  NoDup (map TestDescriptor.id (SuiteDescriptor.tests suite)) /\
  Forall (fun t => TestDescriptor.category t = getCategoryFromFilename filename)
         (SuiteDescriptor.tests suite).
Proof.
  cbv zeta. unfold parseSpecFile. cbn [SuiteDescriptor.id SuiteDescriptor.tests].
  rewrite fold_pushTest. cbn [app List.length].
  set (names := scan_calls "it" 0 (chars content)).
  assert (Hids : map TestDescriptor.id
                   (map (fun p => TestDescriptor.mk
                                    (testIdOf (strip_extension filename) (fst p))
                                    (of_chars (snd p))
                                    (getCategoryFromFilename filename))
                        (combine (seq 0 (List.length names)) names))
                 = map (testIdOf (strip_extension filename)) (seq 0 (List.length names))).
  { rewrite map_map. cbn [TestDescriptor.id].
    rewrite <- (map_fst_combine_seq names 0) at 2. now rewrite map_map. }
  repeat split.
  - rewrite map_map. cbn [TestDescriptor.name].
    rewrite <- (map_map snd of_chars). f_equal.
    apply map_snd_combine_seq.
  - exact Hids.
  - rewrite Hids. apply Finite.Injective_map_NoDup; [|apply seq_NoDup].
    intros i j. apply testIdOf_inj.
  - apply Forall_forall. intros t Ht. apply in_map_iff in Ht as (p & <- & _).
    reflexivity.
Qed.

Lemma parseAll_spec read : forall specFiles,
  match parseAll read specFiles with
  | Some suites =>
      map SuiteDescriptor.file suites = specFiles /\
      Forall (fun s => exists content,
                  read (SuiteDescriptor.file s) = Some content /\
                  s = parseSpecFile (SuiteDescriptor.file s) content) suites
  | None => exists file, In file specFiles /\ read file = None
  end.
Proof.
  induction specFiles as [|f l IH]; simpl.
  - split; constructor.
  - destruct (read f) as [content|] eqn:Hf.
    + destruct (parseAll read l) as [suites|].
      * destruct IH as [Hm Hall]. split; [simpl; now rewrite Hm|].
        constructor; [|exact Hall]. exists content. simpl. auto.
      * destruct IH as (file & Hin & Hr). eauto.
    + exists f. auto.
Qed.

(** X5. [GET /api/suites] over a readable directory answers either one
    descriptor per recognised spec file, in the order of the listing, each
    parsed from the content of its file, or the error 500 — and the error
    only when a recognised spec file cannot be read. *)
Theorem suites_listing (files : list string) (read : string -> option string) :
  match getSuites (Some files) read with
  | SuitesOk suites =>
      map SuiteDescriptor.file suites = getSpecFiles files /\
      Forall (fun s => exists content,
                  read (SuiteDescriptor.file s) = Some content /\
                  s = parseSpecFile (SuiteDescriptor.file s) content) suites
  | SuitesError httpStatus error =>
      httpStatus = 500 /\ error = "Failed to fetch test suites" /\
      exists file, In file (getSpecFiles files) /\ read file = None
  end.
Proof.
  unfold getSuites. pose proof (parseAll_spec read (getSpecFiles files)) as H.
  destruct (parseAll read (getSpecFiles files)); auto.
Qed.

(** ** Decimal limits *)

Lemma digit_is_plain (c : ascii) :
  JsNumber.is_digit c = true ->
  JsNumber.is_space c = false /\ Ascii.eqb c "-" = false /\ Ascii.eqb c "+" = false.
Proof.
  destruct c as [[] [] [] [] [] [] [] []]; vm_compute; intros H;
    try discriminate H; auto.
Qed.

Lemma take_digits_all (l : list ascii) :
  forallb JsNumber.is_digit l = true -> JsNumber.take_digits l = l.
Proof.
  induction l as [|c l IH]; simpl; [reflexivity|].
  intros H. apply andb_prop in H as [-> H]. now rewrite IH.
Qed.

Lemma parseInt_digits (c : ascii) (l : list ascii) :
  forallb JsNumber.is_digit (c :: l) = true ->
  JsNumber.parseInt (of_chars (c :: l)) = JsNumber.Num (JsNumber.digits_value (c :: l)) /\
  JsNumber.parseInt (of_chars ("-"%char :: c :: l))
  = JsNumber.Num (- JsNumber.digits_value (c :: l)).
Proof.
  intros H. pose proof (take_digits_all _ H) as Ht.
  assert (Hc : JsNumber.is_digit c = true) by (simpl in H; now apply andb_prop in H).
  destruct (digit_is_plain c Hc) as (Hs & Hm & Hp).
  unfold JsNumber.parseInt. rewrite !chars_of_chars. split.
  - cbn [drop_while]. rewrite Hs, Hm, Hp, Ht. f_equal; lia.
  - cbn [drop_while]. change (JsNumber.is_space "-") with false. cbv iota.
    change (Ascii.eqb "-" "-") with true. cbv iota. rewrite Ht. f_equal; lia.
Qed.

Lemma uint_digits (d : Decimal.uint) :
  forallb JsNumber.is_digit (chars (NilEmpty.string_of_uint d)) = true.
Proof.
  induction d; simpl; auto.
Qed.

Lemma uint_value_acc (d : Decimal.uint) : forall acc,
  fold_left (fun a c => 10 * a + JsNumber.digit_value c)
            (chars (NilEmpty.string_of_uint d)) (Z.pos acc)
  = Z.pos (Pos.of_uint_acc d acc).
Proof.
  induction d as [|d IH|d IH|d IH|d IH|d IH|d IH|d IH|d IH|d IH|d IH];
    intros acc; [reflexivity|..];
    cbn [NilEmpty.string_of_uint chars list_ascii_of_string fold_left Pos.of_uint_acc];
    fold (chars (NilEmpty.string_of_uint d)); rewrite <- IH; f_equal;
    set (v := JsNumber.digit_value _); vm_compute in v; subst v; lia.
Qed.

Lemma uint_value (d : Decimal.uint) :
  JsNumber.digits_value (chars (NilEmpty.string_of_uint d)) = Z.of_N (Pos.of_uint d).
Proof.
  unfold JsNumber.digits_value.
  induction d; simpl; try reflexivity; try exact IHd;
    change (10 * 0 + JsNumber.digit_value _) with (Z.pos 1) ||
    change (10 * 0 + JsNumber.digit_value _) with (Z.pos 2) ||
    change (10 * 0 + JsNumber.digit_value _) with (Z.pos 3) ||
    change (10 * 0 + JsNumber.digit_value _) with (Z.pos 4) ||
    change (10 * 0 + JsNumber.digit_value _) with (Z.pos 5) ||
    change (10 * 0 + JsNumber.digit_value _) with (Z.pos 6) ||
    change (10 * 0 + JsNumber.digit_value _) with (Z.pos 7) ||
    change (10 * 0 + JsNumber.digit_value _) with (Z.pos 8) ||
    change (10 * 0 + JsNumber.digit_value _) with (Z.pos 9);
    apply uint_value_acc.
Qed.

Lemma positive_digits (p : positive) :
  exists c l,
    chars (NilZero.string_of_uint (Pos.to_uint p)) = c :: l /\
    forallb JsNumber.is_digit (c :: l) = true /\
    JsNumber.digits_value (c :: l) = Z.pos p.
Proof.
  pose proof (DecimalPos.Unsigned.to_uint_nonnil p) as Hnn.
  pose proof (DecimalPos.Unsigned.of_to p) as Hof.
  pose proof (uint_digits (Pos.to_uint p)) as Hd.
  pose proof (uint_value (Pos.to_uint p)) as Hv.
  rewrite Hof in Hv.
  assert (Hs : NilZero.string_of_uint (Pos.to_uint p)
               = NilEmpty.string_of_uint (Pos.to_uint p))
    by (destruct (Pos.to_uint p); [congruence | reflexivity..]).
  rewrite Hs.
  destruct (chars (NilEmpty.string_of_uint (Pos.to_uint p))) as [|c l] eqn:E.
  - discriminate Hv.
  - exists c, l. auto.
Qed.

Lemma parseInt_of_num (n : Z) : JsNumber.parseInt (of_num n) = JsNumber.Num n.
Proof.
  destruct n as [|p|p]; [reflexivity| |]; unfold of_num; simpl Z.to_int;
    cbn [NilZero.string_of_int];
    destruct (positive_digits p) as (c & l & Hc & Hd & Hv);
    destruct (parseInt_digits c l Hd) as [Hpos Hneg].
  - rewrite <- (of_chars_chars (NilZero.string_of_uint _)), Hc, Hpos. now rewrite Hv.
  - rewrite <- (of_chars_chars (NilZero.string_of_uint _)), Hc.
    change (String "-" (of_chars (c :: l))) with (of_chars ("-"%char :: c :: l)).
    rewrite Hneg. now rewrite Hv.
Qed.


(** X6. [parseInt] reads back the decimal rendering of every integer, so
    [GET /api/tests/recent?limit=n] asks the registry for the limit [n]. *)
Theorem recent_endpoint_numeric_limit (n : Z) (w : World) :
  JsNumber.parseInt (of_num n) = JsNumber.Num n /\
  recentRuns (Some (of_num n)) w
  = testResultsStore.getRecentRuns (Some (JsNumber.Num n)) (results w) /\
  recentRuns None w = testResultsStore.getRecentRuns None (results w).
Proof.
  split; [apply parseInt_of_num|]. unfold recentRuns. cbn [default].
  split; [now rewrite parseInt_of_num | reflexivity].
Qed.

(** ** Descriptions *)

Lemma drop_while_suffix p (l : list ascii) : exists a, l = (a ++ drop_while p l)%list.
Proof.
  induction l as [|c l [a IH]]; simpl.
  - now exists [].
  - destruct (p c).
    + exists (c :: a). simpl. now f_equal.
    + now exists [].
Qed.

Lemma occurs_in_suffix (k a s : list ascii) :
  (exists x y, s = (x ++ k ++ y)%list) ->
  exists x y, (a ++ s)%list = (x ++ k ++ y)%list.
Proof.
  intros (x & y & ->). exists (a ++ x)%list, y. now rewrite app_assoc.
Qed.

Lemma lazy_doc_body_describe (l g : list ascii) :
  lazy_doc_body l = Some g ->
  exists x y, l = (x ++ chars "describe" ++ y)%list.
Proof.
  revert g. induction l as [|c l IH]; intros g.
  - simpl. unfold closes_doc. simpl. discriminate.
  - cbn [lazy_doc_body]. destruct (closes_doc (c :: l)) eqn:Hc.
    + intros _. unfold closes_doc in Hc. apply andb_prop in Hc as [_ Hd].
      apply starts_with_app in Hd as [r Hr].
      destruct (drop_while_suffix JsNumber.is_space (skipn 2 (c :: l))) as [a Ha].
      rewrite Hr in Ha. rewrite <- (firstn_skipn 2 (c :: l)), Ha.
      exists (firstn 2 (c :: l) ++ a)%list, r. now rewrite <- app_assoc.
    + destruct (lazy_doc_body l) as [g'|]; [|discriminate]. intros _.
      apply (occurs_in_suffix _ [c]). eapply IH. reflexivity.
Qed.

Lemma first_doc_describe (l g : list ascii) :
  first_doc l = Some g ->
  exists x y, l = (x ++ chars "describe" ++ y)%list.
Proof.
  induction l as [|c l IH].
  - simpl. unfold closes_doc. simpl. discriminate.
  - cbn [first_doc].
    destruct (if starts_with (chars "/**") (c :: l)
              then lazy_doc_body (skipn 3 (c :: l)) else None) as [g'|] eqn:E.
    + intros _. destruct (starts_with (chars "/**") (c :: l)); [|discriminate].
      apply lazy_doc_body_describe in E.
      rewrite <- (firstn_skipn 3 (c :: l)). now apply occurs_in_suffix.
    + intros H. apply (occurs_in_suffix _ [c]). now apply IH.
Qed.

Lemma match_call_starts kw l g n :
  match_call kw l = Some (g, n) -> exists y, l = (chars kw ++ y)%list.
Proof.
  unfold match_call.
  destruct (starts_with (chars kw ++ ["("%char]) l) eqn:E; [|discriminate].
  intros _. apply starts_with_app in E as [r ->].
  exists ("("%char :: r). now rewrite <- app_assoc.
Qed.

Lemma scan_calls_occurs kw (l : list ascii) : forall skip,
  scan_calls kw skip l <> [] ->
  exists x y, l = (x ++ chars kw ++ y)%list.
Proof.
  induction l as [|c l IH]; intros skip; simpl; [congruence|].
  destruct skip as [|k].
  - destruct (match_call kw (c :: l)) as [[g n]|] eqn:E.
    + intros _. apply match_call_starts in E as [y ->]. now exists [], y.
    + intros H. apply (occurs_in_suffix _ [c]). eapply IH; eauto.
  - intros H. apply (occurs_in_suffix _ [c]). eapply IH; eauto.
Qed.

Lemma prefix_of_chars (k s : string) (y : list ascii) :
  chars s = (chars k ++ y)%list -> String.prefix k s = true.
Proof.
  revert s. induction k as [|a k IH]; intros s; simpl.
  - now destruct s.
  - destruct s as [|b s]; simpl; [discriminate|].
    intros H. injection H as -> H. fold (chars s) in H. fold (chars k) in H.
    destruct (ascii_dec a a); [now apply IH | congruence].
Qed.

Lemma includes_of_chars (k s : string) (x y : list ascii) :
  chars s = (x ++ chars k ++ y)%list -> includes s k = true.
Proof.
  revert s. induction x as [|c x IH]; intros s H.
  - simpl in H. pose proof (prefix_of_chars _ _ _ H) as Hp.
    destruct s; cbn [includes]; rewrite Hp; reflexivity.
  - destruct s as [|b s]; [discriminate|]. simpl in H. injection H as _ H.
    fold (chars s) in H. cbn [includes]. rewrite (IH _ H). apply orb_true_r.
Qed.

(** X7. A spec file in which the word [describe] does not occur gets the
    description [Cypress test suite]. *)
Theorem description_without_describe (content : string) :
  includes content "describe" = false ->
  getDescriptionFromFile content = "Cypress test suite".
Proof.
  intros H. unfold getDescriptionFromFile.
  destruct (first_doc (chars content)) as [g|] eqn:Hd.
  { apply first_doc_describe in Hd as (x & y & E).
    apply includes_of_chars in E. congruence. }
  destruct (scan_calls "describe" 0 (chars content)) as [|m ms] eqn:Hs; [reflexivity|].
  assert (Hne : scan_calls "describe" 0 (chars content) <> []) by (rewrite Hs; discriminate).
  apply scan_calls_occurs in Hne as (x & y & E).
  apply includes_of_chars in E. congruence.
Qed.

Lemma description_without_describe_witness :
  getDescriptionFromFile "it('loads the page', () => {})" = "Cypress test suite".
Proof.
  apply description_without_describe. reflexivity.
Defined.

(** ** Registry operations *)

Lemma keys_set_present {V : Type} (k : string) (v v0 : V) (o : list (string * V)) :
  JsObject.get k o = Some v0 -> JsObject.keys (JsObject.set k v o) = JsObject.keys o.
Proof.
  induction o as [|[k' v'] o IH]; simpl; [discriminate|].
  destruct (String.eqb_spec k k'); simpl; [reflexivity|].
  intros H. now rewrite IH.
Qed.

Lemma set_absent {V : Type} (k : string) (v : V) (o : list (string * V)) :
  JsObject.get k o = None -> JsObject.set k v o = (o ++ [(k, v)])%list.
Proof.
  induction o as [|[k' v'] o IH]; simpl; [reflexivity|].
  destruct (String.eqb_spec k k'); [discriminate|].
  intros H. now rewrite IH.
Qed.

Lemma set_set {V : Type} (k : string) (v v' : V) (o : list (string * V)) :
  JsObject.set k v (JsObject.set k v' o) = JsObject.set k v o.
Proof.
  induction o as [|[k' v0] o IH]; simpl.
  - now rewrite String.eqb_refl.
  - destruct (String.eqb k k') eqn:E; simpl; rewrite E; [reflexivity|]. now rewrite IH.
Qed.

(** X8. [createRun] stores a record that [getRun] gives back: [running],
    no end time, all-zero summary, no suites. Records under other
    identifiers are untouched. A new identifier is appended to the
    registry; an identifier already in use keeps its place and its record
    is replaced. *)
Theorem createRun_then_getRun
        (runId : string) (config : Config.t) (now : Z) (rs : JsObject.t Run.t) :
  let rs' := fst (testResultsStore.createRun runId config now rs) in
  let r := snd (testResultsStore.createRun runId config now rs) in
  r = Run.mk runId RunStatus.running now None config Summary.zero [] /\
  testResultsStore.getRun runId rs' = Some r /\
  (forall other, runId <> other ->
                 testResultsStore.getRun other rs' = testResultsStore.getRun other rs) /\
  match testResultsStore.getRun runId rs with
  | None => rs' = (rs ++ [(runId, r)])%list
  | Some _ => JsObject.keys rs' = JsObject.keys rs
  end.
Proof.
  cbv zeta. unfold testResultsStore.createRun, testResultsStore.getRun. cbn [fst snd].
  split; [reflexivity|]. split; [apply get_set_eq|].
  split; [intros other Hne; now apply get_set_ne|].
  destruct (JsObject.get runId rs) eqn:E.
  - eapply keys_set_present; eauto.
  - now apply set_absent.
Qed.

(** X9. [updateRunStatus] changes nothing but the status and the end time
    of the record of [runId]: the keys of the registry and their order, and
    every other record, are as before; the end time becomes the current
    time exactly when the new status is [completed] or [error]; on an
    unknown identifier the registry is left as it is. *)
Theorem updateRunStatus_changes_one_record
        (runId : string) (status : RunStatus.t) (now : Z) (rs : JsObject.t Run.t) :
  let rs' := testResultsStore.updateRunStatus runId status now rs in
  JsObject.keys rs' = JsObject.keys rs /\
  (forall other, runId <> other ->
                 testResultsStore.getRun other rs' = testResultsStore.getRun other rs) /\
  match testResultsStore.getRun runId rs with
  | None => rs' = rs
  | Some r =>
      testResultsStore.getRun runId rs' =
      Some (Run.mk (Run.id r) status (Run.startTime r)
                   (match status with
                    | RunStatus.running => Run.endTime r
                    | _ => Some now
                    end)
                   (Run.config r) (Run.summary r) (Run.suites r))
  end.
Proof.
  cbv zeta. unfold testResultsStore.getRun. split; [|split].
  - unfold testResultsStore.updateRunStatus.
    destruct (JsObject.get runId rs) eqn:E; [|reflexivity].
    eapply keys_set_present; eauto.
  - intros other Hne. now apply updateRunStatus_get_other.
  - destruct (JsObject.get runId rs) as [r|] eqn:E.
    + rewrite (updateRunStatus_get _ _ _ _ _ E). now destruct status.
    + unfold testResultsStore.updateRunStatus. now rewrite E.
Qed.

(** X10. A second [updateRunStatus] with a terminal status overrides the
    first one: the registry is the one the second call alone would give
    (status and end time of the earlier call are lost). *)
Theorem updateRunStatus_last_call_wins
        (runId : string) (s1 s2 : RunStatus.t) (t1 t2 : Z) (rs : JsObject.t Run.t) :
  RunStatus.is_terminal s2 = true ->
  testResultsStore.updateRunStatus runId s2 t2
    (testResultsStore.updateRunStatus runId s1 t1 rs)
  = testResultsStore.updateRunStatus runId s2 t2 rs.
Proof.
  intros Ht. unfold testResultsStore.updateRunStatus at 1 3.
  destruct (JsObject.get runId rs) as [r|] eqn:E.
  - rewrite (updateRunStatus_get _ _ _ _ _ E). cbn. rewrite Ht.
    unfold testResultsStore.updateRunStatus. rewrite E. apply set_set.
  - unfold testResultsStore.updateRunStatus. now rewrite E, E.
Qed.

Lemma updateRunStatus_last_call_wins_witness :
  testResultsStore.updateRunStatus "run_5" RunStatus.error 9
    (testResultsStore.updateRunStatus "run_5" RunStatus.completed 7 (results one_run_pending))
  = testResultsStore.updateRunStatus "run_5" RunStatus.error 9 (results one_run_pending).
Proof.
  apply updateRunStatus_last_call_wins. reflexivity.
Defined.

Lemma In_firstn {A : Type} (n : nat) (l : list A) (x : A) :
  In x (firstn n l) -> In x l.
Proof.
  intros H. rewrite <- (firstn_skipn n l). apply in_or_app. now left.
Qed.

(** X11. Whatever the limit is ([NaN] and negative numbers included) the
    recent runs are records of the registry, sorted by start time
    descending, and a limit that is at least the number of runs gives all
    of them. *)
Theorem recent_runs_any_limit (limit : option JsNumber.t) (rs : JsObject.t Run.t) :
  let recent := testResultsStore.getRecentRuns limit rs in
  StronglySorted desc recent /\
  (forall r, In r recent -> In r (JsObject.values rs)) /\
  (List.length recent <= List.length rs)%nat /\
  (forall n, limit = Some (JsNumber.Num n) -> Z.of_nat (List.length rs) <= n ->
             Permutation recent (JsObject.values rs)).
Proof.
  cbv zeta. unfold testResultsStore.getRecentRuns, JsArray.slice0.
  set (sorted := JsArray.sort testResultsStore.byStartDesc (JsObject.values rs)).
  assert (Hlen : List.length sorted = List.length rs).
  { unfold sorted. rewrite (Permutation_length (sort_perm _)). apply length_map. }
  repeat split.
  - apply firstn_strongly_sorted, sort_sorted.
  - intros r Hr. apply (Permutation_in _ (sort_perm (JsObject.values rs))).
    eapply In_firstn; eauto.
  - rewrite length_firstn, Hlen. apply Nat.le_min_r.
  - intros n -> Hn. rewrite Hlen.
    destruct (Z.ltb_spec n 0); [lia|]. rewrite Z.min_r by lia. rewrite Nat2Z.id.
    rewrite firstn_all2 by lia. apply sort_perm.
Qed.

(** ** Executions *)

Lemma onClose_record runId code report now w r :
  JsObject.get runId (results w) = Some r ->
  exists r',
    results (execState (onClose runId code report now) w)
    = JsObject.set runId r' (results w) /\
    Run.id r' = Run.id r /\ Run.startTime r' = Run.startTime r /\
    Run.config r' = Run.config r.
Proof.
  intros Hr. destruct code as [[|p|p]|]; try destruct report; cbn;
    unfold testResultsStore.updateRunStatus; rewrite Hr; cbn;
    eexists; (split; [reflexivity|]); auto.
Qed.

Lemma onClose_unknown runId code report now w :
  JsObject.get runId (results w) = None ->
  results (execState (onClose runId code report now) w) = results w.
Proof.
  intros Hr. destruct code as [[|p|p]|]; try destruct report; cbn;
    unfold testResultsStore.updateRunStatus; rewrite Hr; reflexivity.
Qed.

Lemma answered_step w e w' :
  answered_are_registered w -> step w e = Some w' -> answered_are_registered w'.
Proof.
  intros [Hids Hst] Hstep.
  destruct e as [body t_id t_start | k code report now
                 | suites browser mode t_id t_start]; simpl in Hstep.
  3: { injection Hstep as <-. split.
       - rewrite postRunOther_exec. cbv zeta. cbn [results]. intros key r.
         destruct (String.eqb_spec (newRunId t_id) key) as [<-|Hne].
         + rewrite get_set_eq. now intros [= <-].
         + rewrite get_set_ne by exact Hne. apply Hids.
       - intros id. rewrite started_postRunOther. rewrite postRunOther_exec.
         cbv zeta. cbn [results].
         intros Hin. destruct (String.eqb_spec (newRunId t_id) id) as [<-|Hne].
         + eexists. apply get_set_eq.
         + rewrite get_set_ne by exact Hne. apply Hst.
           apply in_app_or in Hin as [Hin|[E|[]]]; [exact Hin | congruence]. }
  - injection Hstep as <-. split.
    + rewrite postRun_exec. cbv zeta. cbn [results]. intros key r.
      destruct (String.eqb_spec (newRunId t_id) key) as [<-|Hne].
      * rewrite get_set_eq. now intros [= <-].
      * rewrite get_set_ne by exact Hne. apply Hids.
    + intros id. rewrite started_postRun. rewrite postRun_exec. cbv zeta. cbn [results].
      intros Hin. destruct (String.eqb_spec (newRunId t_id) id) as [<-|Hne].
      * eexists. apply get_set_eq.
      * rewrite get_set_ne by exact Hne. apply Hst.
        apply in_app_or in Hin as [Hin|[E|[]]]; [exact Hin | congruence].
  - destruct (nth_error (children w) k) as [runId|]; [|discriminate].
    injection Hstep as <-.
    set (w0 := mkWorld (results w) (output w) (remove_nth k (children w))).
    destruct (JsObject.get runId (results w)) as [r|] eqn:Hr.
    + destruct (onClose_record runId code report now w0 r Hr) as (r' & Hres & Hid & _).
      split.
      * intros key r0. rewrite Hres. unfold w0. cbn [results].
        destruct (String.eqb_spec runId key) as [<-|Hne].
        -- rewrite get_set_eq. intros [= <-]. rewrite Hid. now apply Hids.
        -- rewrite get_set_ne by exact Hne. apply Hids.
      * intros id. rewrite Hres. unfold w0. rewrite started_onClose.
        cbn [results]. intros Hin.
        destruct (String.eqb_spec runId id) as [<-|Hne].
        -- eexists. apply get_set_eq.
        -- rewrite get_set_ne by exact Hne. now apply Hst.
    + split.
      * intros key r0. rewrite (onClose_unknown runId code report now w0 Hr).
        apply Hids.
      * intros id. rewrite (onClose_unknown runId code report now w0 Hr).
        unfold w0. rewrite started_onClose. apply Hst.
Qed.

Lemma answered_run tr : forall w0 w,
  answered_are_registered w0 -> run w0 tr = Some w -> answered_are_registered w.
Proof.
  induction tr as [|e tr IH]; intros w0 w H0; simpl.
  - now intros [= <-].
  - destruct (step w0 e) as [w1|] eqn:Hstep; [|discriminate].
    apply IH. eapply answered_step; eauto.
Qed.

(** X12. Polling never misses a started run: along every execution, each
    identifier the server has answered to a [POST /api/tests/run] has a
    record whose [id] is that identifier, so the status and the results
    endpoints answer 200 with that record, not 404. *)
Theorem started_run_can_be_polled (tr : list Event) (w : World) (id : string) :
  run initial tr = Some w ->
  In id (started w) ->
  exists r,
    testResultsStore.getRun id (results w) = Some r /\
    Run.id r = id /\
    getStatus id w
    = ResJson 200 (StatusBody id (Run.status r) (Run.startTime r) (Run.endTime r)) /\
    getResults id w = ResJson 200 (RunBody r).
Proof.
  intros Hrun Hin.
  assert (H0 : answered_are_registered initial).
  { split; [intros k r; discriminate | intros i []]. }
  destruct (answered_run tr initial w H0 Hrun) as [Hids Hst].
  destruct (Hst id Hin) as [r Hr]. exists r.
  unfold getStatus, getResults, testResultsStore.getRun. rewrite Hr.
  rewrite (Hids _ _ Hr). auto.
Qed.

Lemma started_run_can_be_polled_witness :
  exists r,
    testResultsStore.getRun "run_5" (results one_run_pending) = Some r /\
    getStatus "run_5" one_run_pending = ResJson 200 (StatusBody "run_5" RunStatus.running 5 None).
Proof.
  destruct (started_run_can_be_polled [PostRun some_request 5 5] one_run_pending "run_5"
              eq_refl (or_introl eq_refl)) as (r & Hr & _ & Hs & _).
  exists r. split; [exact Hr|]. rewrite Hs.
  injection Hr as <-. reflexivity.
Defined.

Lemma length_remove_nth {A : Type} (k : nat) (l : list A) (x : A) :
  nth_error l k = Some x -> S (List.length (remove_nth k l)) = List.length l.
Proof.
  revert k. induction l as [|y l IH]; intros [|k]; simpl; try discriminate; auto.
Qed.

Lemma launches_onClose runId code report now w cs :
  launches (execState (onClose runId code report now)
                      (mkWorld (results w) (output w) cs)) = launches w.
Proof.
  unfold launches.
  destruct code as [[|p|p]|]; try destruct report; cbn;
    try (destruct (JsObject.get runId (results w)); cbn);
    rewrite ?flat_map_app; cbn; now rewrite ?app_nil_r.
Qed.

Lemma children_onClose runId code report now w :
  children (execState (onClose runId code report now) w) = children w.
Proof. apply (onClose_effect runId code report now w). Qed.

Lemma launches_run tr : forall w0 w,
  run w0 tr = Some w ->
  launches w = (launches w0 ++ requested_launches tr)%list /\
  (List.length (children w) + closes tr
   = List.length (children w0) + List.length (requested_launches tr))%nat.
Proof.
  induction tr as [|e tr IH]; intros w0 w; simpl.
  - intros [= <-]. rewrite app_nil_r. split; [reflexivity | unfold closes; simpl; lia].
  - destruct (step w0 e) as [w1|] eqn:Hstep; [|discriminate]. intros Hrun.
    destruct (IH _ _ Hrun) as [Hl Hc].
    destruct e as [body t_id t_start | k code report now
                   | suites browser mode t_id t_start]; simpl in Hstep.
    + injection Hstep as <-. rewrite postRun_exec in Hl, Hc. cbv zeta in Hl, Hc.
      unfold launches in Hl at 2. cbn [output children] in Hl, Hc.
      rewrite !flat_map_app in Hl. cbn in Hl. rewrite !app_nil_r in Hl.
      rewrite length_app in Hc. cbn in Hc.
      split.
      * rewrite Hl. unfold launches at 1. cbn [requested_launches flat_map].
        now rewrite <- app_assoc.
      * unfold closes in *. cbn [requested_launches flat_map filter List.length app].
        cbn [List.length] in Hc. lia.
    + destruct (nth_error (children w0) k) as [runId|] eqn:Hk; [|discriminate].
      injection Hstep as <-. rewrite launches_onClose in Hl.
      rewrite children_onClose in Hc. cbn [children] in Hc.
      pose proof (length_remove_nth _ _ _ Hk) as Hr.
      split; [exact Hl|]. unfold closes in *.
      cbn [requested_launches flat_map filter List.length app]. lia.
    + injection Hstep as <-. rewrite postRunOther_exec in Hl, Hc. cbv zeta in Hl, Hc.
      unfold launches in Hl at 2. cbn [output children] in Hl, Hc.
      cbn [requested_launches flat_map]. unfold closes in *. cbn [filter].
      fold (requested_launches tr) in *.
      destruct (otherSuitesPass suites (default "all" mode)).
      * rewrite !flat_map_app in Hl. cbn in Hl. rewrite !app_nil_r in Hl.
        rewrite length_app in Hc. cbn in Hc.
        split; [rewrite Hl; unfold launches at 1; now rewrite <- app_assoc|].
        cbn [app List.length]. lia.
      * rewrite !flat_map_app in Hl. cbn in Hl. rewrite !app_nil_r in Hl.
        split; [exact Hl | exact Hc].
Qed.

(** X13. Along every execution the child processes launched are those of
    the requests whose handler gets through the lines that build the
    command, one for each, with the Cypress command of the body, in the
    order of the requests. A request whose [suites] makes these lines throw
    ([null]; a string that is not empty, or an object with a positive
    [length], when [mode] is not [all]) launches nothing. [close] callbacks
    launch nothing, and the children still pending are the launches minus
    the [close] events handled. *)
Theorem requests_launch_children (tr : list Event) (w : World) :
  run initial tr = Some w ->
  launches w = requested_launches tr /\
  (List.length (children w) + closes tr = List.length (requested_launches tr))%nat.
Proof.
  intros H. apply launches_run in H. exact H.
Qed.

Lemma requests_launch_children_witness :
  exists w,
    run initial [PostRun some_request 5 5; Close 0 (Some 0) NoReport 7;
                 PostOther SuitesNull None None 8 8;
                 PostRun (mkRunRequest None None None) 9 9] = Some w /\
    launches w =
    [("npx cypress run --browser chrome --spec " ++ dquote
        ++ "cypress/integration/login.spec.js" ++ dquote, "run_5");
     ("npx cypress run --browser chrome ", "run_9")] /\
    children w = ["run_9"] /\
    started w = ["run_5"; "run_8"; "run_9"].
Proof.
  eexists. split; [reflexivity|]. split; [|split; reflexivity].
  exact (proj1 (requests_launch_children
                  [PostRun some_request 5 5; Close 0 (Some 0) NoReport 7;
                   PostOther SuitesNull None None 8 8;
                   PostRun (mkRunRequest None None None) 9 9] _ eq_refl)).
Defined.

(** ** Completion with a report, and with a report that cannot be used *)

(** X14. When the child closes with code 0 and a report none of whose
    suite identifiers is the name of a property of [Object.prototype] (on
    such a name [processTestResults] creates no suite and throws at the first
    test), the callback
    replaces the summary and the suites of the record by the result of
    [processTestResults] and sets the status [completed]; identifier, start
    time, configuration and end time are kept, so the end time of the run
    is not set on this path; nothing is logged. *)
Theorem report_is_merged_into_run
        (w : World) (k : nat) (runId : string) (r : Run.t)
        (rawResults : Raw.Report) (now : Z) :
  own_suite_ids rawResults = true ->
  nth_error (children w) k = Some runId ->
  testResultsStore.getRun runId (results w) = Some r ->
  exists w',
    step w (Close k (Some 0) (Report rawResults) now) = Some w' /\
    testResultsStore.getRun runId (results w') =
    Some (Run.mk (Run.id r) RunStatus.completed (Run.startTime r) (Run.endTime r)
                 (Run.config r)
                 (Processed.summary (processTestResults rawResults))
                 (Processed.suites (processTestResults rawResults))) /\
    (forall other, runId <> other ->
                   testResultsStore.getRun other (results w')
                   = testResultsStore.getRun other (results w)) /\
    output w' = output w.
Proof.
  intros _ Hk Hr. unfold step. rewrite Hk.
  rewrite (onClose_report_exec _ _ _ _ r) by exact Hr.
  eexists. split; [reflexivity|]. cbn [results output].
  unfold testResultsStore.getRun. rewrite get_set_eq.
  repeat split. intros other Hne. now apply get_set_ne.
Qed.

Lemma report_is_merged_into_run_witness :
  exists w',
    step one_run_pending (Close 0 (Some 0) (Report two_nested_suites) 9) = Some w' /\
    getStatus "run_5" w' = ResJson 200 (StatusBody "run_5" RunStatus.completed 5 None).
Proof.
  destruct (report_is_merged_into_run one_run_pending 0 "run_5"
              (Run.mk "run_5" RunStatus.running 5 None
                      (Config.mk ["login.spec.js"] "chrome" "selected") Summary.zero [])
              two_nested_suites 9 eq_refl eq_refl eq_refl) as (w' & Hs & Hg & _).
  exists w'. split; [exact Hs|]. unfold getStatus. now rewrite Hg.
Defined.

(** X15. When the child closes with code 0 and the report cannot be read
    or processed, the callback logs the error and marks the run [error]
    with the current time as end time; summary and suites stay as they
    were. *)
Theorem unusable_report_marks_error
        (w : World) (k : nat) (runId : string) (r : Run.t) (now : Z) :
  nth_error (children w) k = Some runId ->
  testResultsStore.getRun runId (results w) = Some r ->
  exists w',
    step w (Close k (Some 0) BadReport now) = Some w' /\
    testResultsStore.getRun runId (results w') =
    Some (Run.mk (Run.id r) RunStatus.error (Run.startTime r) (Some now)
                 (Run.config r) (Run.summary r) (Run.suites r)) /\
    output w' = (output w ++ [ConsoleError "Error processing test results:"])%list.
Proof.
  intros Hk Hr. unfold step. rewrite Hk, onClose_bad_exec.
  eexists. split; [reflexivity|]. cbn [results output].
  unfold testResultsStore.getRun in *.
  now rewrite (updateRunStatus_get _ _ _ _ _ Hr).
Qed.

Lemma unusable_report_marks_error_witness :
  exists w',
    step one_run_pending (Close 0 (Some 0) BadReport 9) = Some w' /\
    getStatus "run_5" w' = ResJson 200 (StatusBody "run_5" RunStatus.error 5 (Some 9)).
Proof.
  destruct (unusable_report_marks_error one_run_pending 0 "run_5"
              (Run.mk "run_5" RunStatus.running 5 None
                      (Config.mk ["login.spec.js"] "chrome" "selected") Summary.zero [])
              9 eq_refl eq_refl) as (w' & Hs & Hg & _).
  exists w'. split; [exact Hs|]. unfold getStatus. now rewrite Hg.
Defined.

(** ** Suites of the normalized result *)

Lemma get_alter_eq {V : Type} (f : V -> V) (k : string) (o : list (string * V)) :
  JsObject.get k (JsObject.alter f k o) = option_map f (JsObject.get k o).
Proof.
  unfold JsObject.alter. destruct (JsObject.get k o) eqn:E; simpl.
  - apply get_set_eq.
  - exact E.
Qed.

Lemma get_alter_ne {V : Type} (f : V -> V) (k k' : string) (o : list (string * V)) :
  k <> k' -> JsObject.get k' (JsObject.alter f k o) = JsObject.get k' o.
Proof.
  intros Hne. unfold JsObject.alter.
  destruct (JsObject.get k o); [now apply get_set_ne | reflexivity].
Qed.

Lemma alter_alter {V : Type} (f g : V -> V) (k : string) (o : list (string * V)) :
  JsObject.alter g k (JsObject.alter f k o) = JsObject.alter (fun v => g (f v)) k o.
Proof.
  unfold JsObject.alter at 1. rewrite get_alter_eq.
  unfold JsObject.alter. destruct (JsObject.get k o); simpl; [apply set_set | reflexivity].
Qed.

Lemma suites_count_set_present k s s0 o :
  JsObject.get k o = Some s0 ->
  suites_count (JsObject.set k s o) = suites_count o - suite_count s0 + suite_count s.
Proof.
  induction o as [|[k' s'] o IH]; simpl; [discriminate|].
  destruct (String.eqb_spec k k'); simpl.
  - intros [= ->]. lia.
  - intros H. rewrite (IH H). lia.
Qed.

Lemma suites_count_set_absent k s o :
  JsObject.get k o = None ->
  suites_count (JsObject.set k s o) = suites_count o + suite_count s.
Proof.
  induction o as [|[k' s'] o IH]; simpl; [lia|].
  destruct (String.eqb_spec k k'); simpl; [discriminate|].
  intros H. rewrite (IH H). lia.
Qed.

Lemma Forall_set {V : Type} (P : V -> Prop) (k : string) (v : V) (o : list (string * V)) :
  Forall (fun kv => P (snd kv)) o -> P v ->
  Forall (fun kv => P (snd kv)) (JsObject.set k v o).
Proof.
  intros Ho Hv. induction Ho as [|[k' v'] o Hp Ho IH]; simpl.
  - repeat constructor. exact Hv.
  - destruct (String.eqb k k'); constructor; auto.
Qed.

Lemma Forall_get {V : Type} (P : V -> Prop) (k : string) (v : V) (o : list (string * V)) :
  Forall (fun kv => P (snd kv)) o -> JsObject.get k o = Some v -> P v.
Proof.
  intros Ho. induction Ho as [|[k' v'] o Hp Ho IH]; simpl; [discriminate|].
  destruct (String.eqb k k'); [now intros [= <-] | exact IH].
Qed.

Lemma Forall_alter {V : Type} (P : V -> Prop) (f : V -> V) (k : string)
      (o : list (string * V)) :
  (forall v, P v -> P (f v)) ->
  Forall (fun kv => P (snd kv)) o ->
  Forall (fun kv => P (snd kv)) (JsObject.alter f k o).
Proof.
  intros Hf Ho. unfold JsObject.alter.
  destruct (JsObject.get k o) as [v|] eqn:E; [|exact Ho].
  apply Forall_set; [exact Ho|]. apply Hf. eapply Forall_get; eauto.
Qed.

Lemma length_set_le {V : Type} (k : string) (v : V) (o : list (string * V)) :
  (List.length (JsObject.set k v o) <= S (List.length o))%nat.
Proof.
  induction o as [|[k' v'] o IH]; simpl; [lia|].
  destruct (String.eqb k k'); simpl; lia.
Qed.

(** The suites after one test: the suite of [suiteId] counts the test and
    stores its entry. *)
Lemma suites_processTest suiteId acc i t :
  Processed.suites (processTest suiteId acc i t) =
  JsObject.alter (fun s => SuiteResult.set_test (testIdOf suiteId i) (detailOf t)
                             (SuiteResult.bump (statusOf t) s))
                 suiteId (Processed.suites acc).
Proof.
  unfold processTest. cbn [Processed.suites]. now rewrite alter_alter.
Qed.

Lemma suite_count_step tid d st s :
  suite_count (SuiteResult.set_test tid d (SuiteResult.bump st s)) = suite_count s + 1.
Proof.
  unfold suite_count. destruct st; simpl; lia.
Qed.

Lemma suite_sound_step tid d st s :
  suite_sound s -> suite_sound (SuiteResult.set_test tid d (SuiteResult.bump st s)).
Proof.
  unfold suite_sound. rewrite suite_count_step. intros (Hp & Hf & Hs & Hl).
  pose proof (length_set_le tid d (SuiteResult.tests (SuiteResult.bump st s))) as Hle.
  assert (Ht : SuiteResult.tests (SuiteResult.bump st s) = SuiteResult.tests s)
    by now destruct st.
  rewrite Ht in Hle.
  destruct st; cbn [SuiteResult.set_test SuiteResult.bump SuiteResult.passed
                    SuiteResult.failed SuiteResult.skipped SuiteResult.tests] in *;
    repeat split; lia.
Qed.

Lemma forEach_from_inv {A St : Type} (P : St -> Prop) (f : St -> nat -> A -> St) :
  (forall s i x, P s -> P (f s i x)) ->
  forall l i s, P s -> P (forEach_from f i l s).
Proof.
  intros Hf. induction l as [|x l IH]; intros i s Hs; simpl; auto.
Qed.

Lemma normalizing_processTest suiteId acc i t :
  JsObject.get suiteId (Processed.suites acc) <> None ->
  normalizing acc ->
  normalizing (processTest suiteId acc i t).
Proof.
  intros Hp [Hc Hs Hn].
  destruct (JsObject.get suiteId (Processed.suites acc)) as [s|] eqn:E; [|congruence].
  split.
  - rewrite summary_processTest, suites_processTest. unfold JsObject.alter. rewrite E.
    rewrite (suites_count_set_present _ _ _ _ E), suite_count_step.
    unfold add_tests. cbn [Summary.total List.length]. lia.
  - rewrite suites_processTest. apply Forall_alter; [|exact Hs].
    intros v. apply suite_sound_step.
  - intros k s0. rewrite suites_processTest.
    destruct (String.eqb_spec suiteId k) as [<-|Hne].
    + rewrite get_alter_eq, E. cbn. intros [= <-].
      rewrite <- (Hn _ _ E). now destruct (statusOf t).
    + rewrite get_alter_ne by exact Hne. apply Hn.
Qed.

Lemma present_processTest suiteId k acc i t :
  JsObject.get k (Processed.suites acc) <> None ->
  JsObject.get k (Processed.suites (processTest suiteId acc i t)) <> None.
Proof.
  rewrite suites_processTest.
  destruct (String.eqb_spec suiteId k) as [<-|Hne].
  - rewrite get_alter_eq. now destruct (JsObject.get suiteId (Processed.suites acc)).
  - now rewrite get_alter_ne.
Qed.

Lemma present_processSuite suiteId k acc i suite :
  JsObject.get k (Processed.suites acc) <> None ->
  JsObject.get k (Processed.suites (processSuite suiteId acc i suite)) <> None.
Proof.
  unfold processSuite, forEach.
  apply (forEach_from_inv (fun a => JsObject.get k (Processed.suites a) <> None)).
  intros s j x. apply present_processTest.
Qed.

Lemma normalizing_processSuite suiteId acc i suite :
  JsObject.get suiteId (Processed.suites acc) <> None /\ normalizing acc ->
  JsObject.get suiteId (Processed.suites (processSuite suiteId acc i suite)) <> None /\
  normalizing (processSuite suiteId acc i suite).
Proof.
  unfold processSuite, forEach.
  apply (forEach_from_inv
           (fun a => JsObject.get suiteId (Processed.suites a) <> None /\ normalizing a)).
  intros s j x [Hp Hn]. split; [now apply present_processTest|].
  now apply normalizing_processTest.
Qed.

Lemma processFile_spec acc i f :
  normalizing acc ->
  normalizing (processFile acc i f) /\
  JsObject.get (strip_extension (basename (Raw.file f)))
               (Processed.suites (processFile acc i f)) <> None /\
  (forall k, JsObject.get k (Processed.suites acc) <> None ->
             JsObject.get k (Processed.suites (processFile acc i f)) <> None).
Proof.
  intros [Hc Hs Hn]. unfold processFile, forEach.
  set (suiteId := strip_extension (basename (Raw.file f))).
  set (acc1 := match JsObject.get suiteId (Processed.suites acc) with
               | Some _ => acc
               | None => _
               end).
  assert (H1 : JsObject.get suiteId (Processed.suites acc1) <> None /\ normalizing acc1).
  { unfold acc1. destruct (JsObject.get suiteId (Processed.suites acc)) eqn:E.
    - split; [congruence | now split].
    - cbn [Processed.suites]. split; [now rewrite get_set_eq|].
      split; cbn [Processed.suites Processed.summary].
      + rewrite (suites_count_set_absent _ _ _ E). unfold suite_count. simpl. lia.
      + apply Forall_set; [exact Hs|]. unfold suite_sound, suite_count. simpl. lia.
      + intros k s. destruct (String.eqb_spec suiteId k) as [<-|Hne].
        * rewrite get_set_eq. now intros [= <-].
        * rewrite get_set_ne by exact Hne. apply Hn. }
  assert (H2 : forall k, JsObject.get k (Processed.suites acc) <> None ->
                         JsObject.get k (Processed.suites acc1) <> None).
  { intros k Hk. unfold acc1.
    destruct (JsObject.get suiteId (Processed.suites acc)) eqn:E; [exact Hk|].
    cbn [Processed.suites]. destruct (String.eqb_spec suiteId k) as [<-|Hne].
    - now rewrite get_set_eq.
    - now rewrite get_set_ne. }
  pose proof (forEach_from_inv
                (fun a => JsObject.get suiteId (Processed.suites a) <> None /\ normalizing a)
                (processSuite suiteId) (normalizing_processSuite suiteId)
                (Raw.suites f) 0%nat acc1 H1) as [Hp' Hn'].
  split; [exact Hn'|]. split; [exact Hp'|].
  intros k Hk.
  apply (forEach_from_inv (fun a => JsObject.get k (Processed.suites a) <> None)
                          (processSuite suiteId)); [|now apply H2].
  intros s j x. apply present_processSuite.
Qed.

Lemma processFiles_spec l : forall i acc,
  normalizing acc ->
  normalizing (forEach_from processFile i l acc) /\
  (forall f, In f l ->
             JsObject.get (strip_extension (basename (Raw.file f)))
                          (Processed.suites (forEach_from processFile i l acc)) <> None) /\
  (forall k, JsObject.get k (Processed.suites acc) <> None ->
             JsObject.get k (Processed.suites (forEach_from processFile i l acc)) <> None).
Proof.
  induction l as [|f l IH]; intros i acc Hn; simpl.
  - split; [exact Hn|]. split; [intros f []|auto].
  - destruct (processFile_spec acc i f Hn) as (Hn1 & Hp1 & Hk1).
    destruct (IH (S i) _ Hn1) as (Hn2 & Hp2 & Hk2).
    split; [exact Hn2|]. split.
    + intros g [<-|Hg]; [now apply Hk2 | now apply Hp2].
    + intros k Hk. now apply Hk2, Hk1.
Qed.

Lemma normalizing_empty : normalizing (Processed.mk Summary.zero []).
Proof.
  split; simpl; [reflexivity | constructor | discriminate].
Qed.

(** X16. In the result of [processTestResults] the counters of the suites
    add up to [summary.total]; no suite has a negative counter or more test
    entries than it counted; and every suite is named after its key by
    [formatName]. *)
Theorem suites_account_for_every_test (rawResults : Raw.Report) :
  let p := processTestResults rawResults in
  suites_count (Processed.suites p) = Summary.total (Processed.summary p) /\
  Forall (fun kv => suite_sound (snd kv)) (Processed.suites p) /\
  (forall k s, JsObject.get k (Processed.suites p) = Some s ->
               SuiteResult.name s = formatName k).
Proof.
  cbv zeta. unfold processTestResults, forEach.
  destruct (processFiles_spec (Raw.results rawResults) 0%nat _ normalizing_empty)
    as ([Hc Hs Hn] & _). auto.
Qed.

(** X17. In a report none of whose suite identifiers is the name of a
    property of [Object.prototype], every file block has its suite in the
    result, under the identifier made from the base name of its path without
    the extension, and named after it by [formatName]. When the path ends in
    a slash and the name of a spec file, that identifier and that name are
    the ones [parseSpecFile] gives to the file. *)
Theorem report_suite_matches_inventory
        (rawResults : Raw.Report) (block : Raw.File) :
  own_suite_ids rawResults = true ->
  In block (Raw.results rawResults) ->
  let suiteId := strip_extension (basename (Raw.file block)) in
  exists s,
    JsObject.get suiteId (Processed.suites (processTestResults rawResults)) = Some s /\
    SuiteResult.name s = formatName suiteId /\
    (forall dir filename content,
        Raw.file block = dir ++ "/" ++ filename ->
        no_slash filename = true -> filename <> "" ->
        suiteId = SuiteDescriptor.id (parseSpecFile filename content) /\
        SuiteResult.name s = SuiteDescriptor.name (parseSpecFile filename content)).
Proof.
  intros _ Hin. cbv zeta.
  unfold processTestResults, forEach.
  destruct (processFiles_spec (Raw.results rawResults) 0%nat _ normalizing_empty)
    as ([_ _ Hn] & Hp & _).
  specialize (Hp _ Hin).
  destruct (JsObject.get (strip_extension (basename (Raw.file block))) _) as [s|] eqn:E;
    [|congruence].
  exists s. split; [reflexivity|]. split; [now apply Hn|].
  intros dir filename content Hfile Hns Hne.
  unfold parseSpecFile. cbn [SuiteDescriptor.id SuiteDescriptor.name].
  rewrite (Hn _ _ E), Hfile, (basename_of_path _ _ Hns Hne). auto.
Qed.

Lemma report_suite_matches_inventory_witness :
  exists s,
    JsObject.get "login.spec" (Processed.suites (processTestResults two_nested_suites))
    = Some s /\
    SuiteResult.name s = "Login.spec Tests".
Proof.
  destruct (report_suite_matches_inventory two_nested_suites _ eq_refl (or_introl eq_refl))
    as (s & Hg & Hn & _).
  exists s. split; [exact Hg | exact Hn].
Defined.

(** X18. [summary.duration] is the sum of the durations of the tests of
    the report, a test without duration counting 0; it is not negative when
    no reported duration is. *)
Theorem summary_duration_is_sum (rawResults : Raw.Report) :
  let s := Processed.summary (processTestResults rawResults) in
  Summary.duration s = total_duration (all_tests rawResults) /\
  ((forall t, In t (all_tests rawResults) -> 0 <= durationOf t) ->
   0 <= Summary.duration s).
Proof.
  cbv zeta.
  assert (Hd : Summary.duration (Processed.summary (processTestResults rawResults))
               = total_duration (all_tests rawResults)).
  { unfold processTestResults, forEach. rewrite summary_files.
    fold (all_tests rawResults). unfold add_tests. cbn [Summary.duration].
    change (Summary.duration Summary.zero) with 0. apply Z.add_0_l. }
  split; [exact Hd|]. rewrite Hd. clear Hd. intros H.
  induction (all_tests rawResults) as [|t l IH]; [simpl; lia|].
  assert (0 <= durationOf t) by (apply H; now left).
  assert (0 <= total_duration l) by (apply IH; intros; apply H; now right).
  unfold total_duration in *. cbn [fold_right]. lia.
Qed.

Lemma single_suite_tests suiteId ts : forall i acc s,
  Processed.suites acc = [(suiteId, s)] ->
  (forall j, (i <= j)%nat ->
             JsObject.get (testIdOf suiteId j) (SuiteResult.tests s) = None) ->
  Processed.suites (forEach_from (processTest suiteId) i ts acc) =
  [(suiteId,
    SuiteResult.mk (SuiteResult.name s) (SuiteResult.file s)
                   (SuiteResult.passed s + count_status TestStatus.passed ts)
                   (SuiteResult.failed s + count_status TestStatus.failed ts)
                   (SuiteResult.skipped s + count_status TestStatus.skipped ts)
                   (SuiteResult.tests s ++ entries_from suiteId i ts)%list)].
Proof.
  induction ts as [|t ts IH]; intros i acc s Hacc Hfresh.
  - simpl. rewrite Hacc. destruct s. unfold count_status. simpl.
    rewrite app_nil_r, !Z.add_0_r. reflexivity.
  - cbn [forEach_from].
    assert (Hstep : Processed.suites (processTest suiteId acc i t) =
                    [(suiteId,
                      SuiteResult.set_test (testIdOf suiteId i) (detailOf t)
                        (SuiteResult.bump (statusOf t) s))]).
    { rewrite suites_processTest, Hacc. unfold JsObject.alter. simpl.
      now rewrite String.eqb_refl. }
    assert (Htests : SuiteResult.tests
                       (SuiteResult.set_test (testIdOf suiteId i) (detailOf t)
                          (SuiteResult.bump (statusOf t) s))
                     = (SuiteResult.tests s ++ [(testIdOf suiteId i, detailOf t)])%list).
    { cbn [SuiteResult.set_test SuiteResult.tests].
      assert (Hb : SuiteResult.tests (SuiteResult.bump (statusOf t) s)
                   = SuiteResult.tests s) by now destruct (statusOf t).
      rewrite Hb. apply set_absent. apply Hfresh. lia. }
    rewrite (IH (S i) _ _ Hstep).
    + rewrite Htests, <- app_assoc. cbn [app entries_from].
      unfold count_status, has_status. cbn [filter].
      destruct (statusOf t); cbn [SuiteResult.set_test SuiteResult.bump SuiteResult.name
                                  SuiteResult.file SuiteResult.passed SuiteResult.failed
                                  SuiteResult.skipped List.length];
        rewrite ?Nat2Z.inj_succ; do 3 f_equal; lia.
    + intros j Hj. rewrite Htests, <- (set_absent _ _ _ (Hfresh i (Nat.le_refl i))).
      rewrite get_set_ne; [apply Hfresh; lia|].
      intros E. apply testIdOf_inj in E. lia.
Qed.

Lemma keys_entries_from suiteId ts : forall i,
  JsObject.keys (entries_from suiteId i ts)
  = map (testIdOf suiteId) (seq i (List.length ts)).
Proof.
  induction ts as [|t ts IH]; intros i; simpl; [reflexivity|].
  f_equal. apply IH.
Qed.

(** X19. For a report of one file block with one nested suite, whose
    suite identifier is not the name of a property of [Object.prototype],
    the result has exactly one suite, under the identifier of the file; its
    counters
    are the numbers of passed, failed and skipped tests, and its tests are
    the entries of the tests of the report in order, under the identifiers
    [suiteId-0], [suiteId-1], ..., which are pairwise distinct: no entry is
    lost. *)
Theorem single_suite_report_keeps_every_test (path : string) (ts : list Raw.Test) :
  let fileName := basename path in
  let suiteId := strip_extension fileName in
  is_prototype_key suiteId = false ->
  Processed.suites
    (processTestResults (Raw.mkReport [Raw.mkFile path [Raw.mkSuite ts]]))
  = [(suiteId,
      SuiteResult.mk (formatName suiteId) fileName
                     (count_status TestStatus.passed ts)
                     (count_status TestStatus.failed ts)
                     (count_status TestStatus.skipped ts)
                     (entries_from suiteId 0 ts))] /\
  JsObject.keys (entries_from suiteId 0 ts)
  = map (testIdOf suiteId) (seq 0 (List.length ts)) /\
  NoDup (JsObject.keys (entries_from suiteId 0 ts)).
Proof.
  cbv zeta. intros _. split; [|split].
  - unfold processTestResults, forEach. cbn [Raw.results forEach_from].
    unfold processFile, forEach. cbn [Raw.file Raw.suites forEach_from Processed.suites
                                      JsObject.get Processed.summary].
    unfold processSuite, forEach. cbn [Raw.tests].
    erewrite single_suite_tests; [|reflexivity|intros j _; reflexivity].
    reflexivity.
  - apply keys_entries_from.
  - rewrite keys_entries_from. apply Finite.Injective_map_NoDup; [|apply seq_NoDup].
    intros i j. apply testIdOf_inj.
Qed.

Lemma single_suite_report_keeps_every_test_witness :
  Processed.suites
    (processTestResults
       (Raw.mkReport
          [Raw.mkFile "cypress/integration/cart.spec.js"
             [Raw.mkSuite [Raw.mkTest "X" "Cart X" true false (Some 150) None ""]]]))
  = [("cart.spec",
      SuiteResult.mk "Cart.spec Tests" "cart.spec.js" 1 0 0
        [("cart.spec-0",
          TestResult.mk "X" "Cart X" TestStatus.passed 150 None "" "Shopping Cart")])].
Proof.
  rewrite (proj1 (single_suite_report_keeps_every_test
                    "cypress/integration/cart.spec.js"
                    [Raw.mkTest "X" "Cart X" true false (Some 150) None ""] eq_refl)).
  reflexivity.
Defined.

(** ** What the status of a record tells *)

Lemma onClose_cases runId code report now w r :
  JsObject.get runId (results w) = Some r ->
  exists r',
    results (execState (onClose runId code report now) w)
    = JsObject.set runId r' (results w) /\
    Run.config r' = Run.config r /\
    ((Run.status r' = RunStatus.error /\ Run.summary r' = Run.summary r /\
      Run.suites r' = Run.suites r /\ Run.endTime r' = Some now) \/
     Run.status r' = RunStatus.completed).
Proof.
  intros Hr. destruct code as [[|p|p]|]; try destruct report; cbn;
    unfold testResultsStore.updateRunStatus; rewrite Hr; cbn;
    eexists; (split; [reflexivity|]); (split; [reflexivity|]); cbn;
    first [left; repeat split; reflexivity | right; reflexivity].
Qed.

Lemma remove_nth_other {A : Type} (k : nat) (l : list A) (x y : A) :
  nth_error l k = Some x -> In y l -> y <> x -> In y (remove_nth k l).
Proof.
  revert k. induction l as [|z l IH]; intros [|k]; simpl; try discriminate.
  - intros [= ->] [->|H] Hne; [congruence | exact H].
  - intros Hk [->|H] Hne; [now left | right; eauto].
Qed.

(** A request adds a fresh [running] record and at most its own child. *)
Lemma status_tells_post seen w t_id t_start config (launched : bool) :
  consistent seen w -> ~ In t_id seen -> status_tells w ->
  (configLaunches config = launched) ->
  status_tells
    (mkWorld
       (JsObject.set (newRunId t_id)
          (Run.mk (newRunId t_id) RunStatus.running t_start None config Summary.zero [])
          (results w))
       (output w)
       (if launched then children w ++ [newRunId t_id] else children w)).
Proof.
  intros Hc Ht Hst Hl id r. cbn [results children].
  pose proof (fresh_id_not_child _ _ _ Hc Ht) as Hfresh.
  destruct (String.eqb_spec (newRunId t_id) id) as [<-|Hne].
  - rewrite get_set_eq. intros [= <-]. cbn [Run.status Run.endTime Run.config
                                             Run.summary Run.suites].
    split; [split; [reflexivity|]|split; [|split; [auto|discriminate]]].
    + intros Ht'. rewrite Ht' in Hl. subst launched. apply in_or_app. right. now left.
    + intros Hf. rewrite Hf in Hl. subst launched. auto.
  - rewrite get_set_ne by exact Hne. intros Hr.
    destruct (Hst _ _ Hr) as (H1 & H2 & H3 & H4).
    assert (Hin : In id (children w) -> In id (if launched
                                                then children w ++ [newRunId t_id]
                                                else children w))
      by (destruct launched; [intros; apply in_or_app; now left | auto]).
    assert (Hout : In id (if launched then children w ++ [newRunId t_id] else children w)
                   -> In id (children w)).
    { destruct launched; [|auto]. intros H. apply in_app_or in H as [H|[E|[]]]; congruence. }
    split; [|split; [|split; [exact H3 | exact H4]]].
    + intros Hs. split; [now apply H1|]. intros Hcl. apply Hin. now apply H1.
    + intros Hf. split; [now apply H2|]. intros Hx. apply Hout in Hx.
      revert Hx. now apply H2.
Qed.

Lemma status_tells_step seen w e w' :
  consistent seen w ->
  (forall t, In t (post_times [e]) -> ~ In t seen) ->
  status_tells w -> step w e = Some w' -> status_tells w'.
Proof.
  intros Hc Hfresh Hst Hstep.
  destruct e as [body t_id t_start | k code report now
                 | suites browser mode t_id t_start]; simpl in Hstep.
  - injection Hstep as <-. rewrite postRun_exec. cbv zeta.
    intros id r Hr.
    apply (status_tells_post seen
             (mkWorld (results w) (output w) (children w)) t_id t_start
             (Typed (Config.mk (default [] (req_suites body))
                               (default "chrome" (req_browser body))
                               (default "all" (req_mode body))))
             true); auto.
    + destruct Hc. now split.
    + apply Hfresh. now left.
  - destruct (nth_error (children w) k) as [runId|] eqn:Hk; [|discriminate].
    injection Hstep as <-.
    destruct (child_registered _ _ Hc _ (nth_error_In _ _ Hk)) as (r0 & Hr0 & Hs0 & _).
    destruct (onClose_cases runId code report now
                (mkWorld (results w) (output w) (remove_nth k (children w))) r0 Hr0)
      as (r' & Hres & Hcfg & Hcase).
    intros id r. rewrite Hres, children_onClose. cbn [results children].
    destruct (String.eqb_spec runId id) as [<-|Hne].
    + rewrite get_set_eq. intros [= <-].
      destruct (Hst _ _ Hr0) as (_ & H2 & H3 & _).
      assert (Hlaunch : configLaunches (Run.config r') = false -> False).
      { rewrite Hcfg. intros Hf. apply (proj2 (H2 Hf)). eapply nth_error_In; eauto. }
      assert (Hzero : Run.summary r0 = Summary.zero /\ Run.suites r0 = [])
        by (apply H3; rewrite Hs0; discriminate).
      split; [|split; [intros Hf; now destruct (Hlaunch Hf)|]].
      * destruct Hcase as [(He & _)|Hcomp]; intros Hs; rewrite Hs in *; discriminate.
      * destruct Hcase as [(He & Hsum & Hsu & Hend)|Hcomp].
        -- split; [intros _; rewrite Hsum, Hsu; exact Hzero|].
           intros _. rewrite Hend. discriminate.
        -- split; [intros Hx; congruence | intros Hx; congruence].
    + rewrite get_set_ne by exact Hne. intros Hr.
      destruct (Hst _ _ Hr) as (H1 & H2 & H3 & H4).
      split; [|split; [|split; [exact H3 | exact H4]]].
      * intros Hs. split; [now apply H1|]. intros Hcl.
        eapply remove_nth_other; eauto. now apply H1.
      * intros Hf. split; [now apply H2|]. intros Hx. apply remove_nth_In in Hx.
        revert Hx. now apply H2.
  - injection Hstep as <-. rewrite postRunOther_exec. cbv zeta.
    intros id r Hr.
    remember (otherSuitesPass suites (default "all" mode)) as launched eqn:El.
    assert (Hw : status_tells
              (mkWorld
                 (JsObject.set (newRunId t_id)
                    (Run.mk (newRunId t_id) RunStatus.running t_start None
                            (Untyped suites (default "chrome" browser) (default "all" mode))
                            Summary.zero [])
                    (results w))
                 (output w)
                 (if launched then children w ++ [newRunId t_id] else children w))).
    { apply (status_tells_post seen (mkWorld (results w) (output w) (children w))); auto.
      - destruct Hc. now split.
      - apply Hfresh. now left. }
    exact (Hw id r Hr).
Qed.

Lemma status_tells_run tr : forall seen w w',
  consistent seen w ->
  NoDup (seen ++ post_times tr) ->
  status_tells w -> run w tr = Some w' -> status_tells w'.
Proof.
  induction tr as [|e tr IH]; intros seen w w' Hc Hnd Hst Hrun.
  - simpl in Hrun. now injection Hrun as <-.
  - simpl in Hrun. destruct (step w e) as [w1|] eqn:Hstep; [|discriminate].
    rewrite post_times_cons in Hnd. rewrite app_assoc in Hnd.
    assert (Hfresh : forall t, In t (post_times [e]) -> ~ In t seen).
    { apply NoDup_app_remove_r in Hnd.
      destruct e; simpl; try tauto; intros t [<-|[]];
        apply NoDup_remove_2 in Hnd; now rewrite app_nil_r in Hnd. }
    apply (IH (seen ++ post_times [e])%list w1 w'); auto.
    + eapply consistent_step; eauto.
    + eapply status_tells_step; eauto.
Qed.

(** X20. Along every execution in which no two requests read the same
    millisecond, the status of a record tells the rest of it. A [running]
    run has no end time and, when its request launched a child process, that
    child is still pending. The run of a request whose handler threw before
    the launch ([suites] is [null], or a non-empty string or an object with
    a positive [length] while [mode] is not [all]) stays [running] for ever
    and has no child. A run that is not [completed] has an all-zero summary
    and no suites, so a failed run carries no partial results; and an
    [error] run has an end time. *)
Theorem status_tells_the_record (tr : list Event) (w : World) (id : string) (r : Run.t) :
  NoDup (post_times tr) ->
  run initial tr = Some w ->
  testResultsStore.getRun id (results w) = Some r ->
  (Run.status r = RunStatus.running ->
   Run.endTime r = None /\
   (configLaunches (Run.config r) = true -> In id (children w))) /\
  (configLaunches (Run.config r) = false ->
   Run.status r = RunStatus.running /\ ~ In id (children w)) /\
  (Run.status r <> RunStatus.completed ->
   Run.summary r = Summary.zero /\ Run.suites r = []) /\
  (Run.status r = RunStatus.error -> Run.endTime r <> None).
Proof.
  intros Hnd Hrun Hr.
  assert (H0 : status_tells initial) by (intros i r0; discriminate).
  exact (status_tells_run tr [] initial w consistent_initial Hnd H0 Hrun id r Hr).
Qed.

Lemma status_tells_the_record_witness :
  exists w r,
    run initial [PostRun some_request 5 5; PostOther SuitesNull None None 6 6;
                 Close 0 (Some 2) (Report two_nested_suites) 9]
    = Some w /\
    testResultsStore.getRun "run_6" (results w) = Some r /\
    Run.status r = RunStatus.running /\ ~ In "run_6" (children w).
Proof.
  do 2 eexists. split; [reflexivity|]. split; [reflexivity|].
  refine (proj1 (proj2 (status_tells_the_record
            [PostRun some_request 5 5; PostOther SuitesNull None None 6 6;
             Close 0 (Some 2) (Report two_nested_suites) 9]
            _ "run_6" _ _ eq_refl eq_refl)) eq_refl).
  cbn. repeat constructor; cbn; intuition discriminate.
Defined.
